(** * BaseDataset: the multimodal dataset adapter of
      [autogluon/multimodal/data/dataset.py]

    A shallow embedding of the class [BaseDataset] and the properties its
    description states about it.  Python integers are [Z]; the dictionaries
    the class iterates over ([processors] groups, per-modality features) are
    association lists, since their order is observable; the dictionary the
    class builds and returns is a [gmap]; the attributes created with
    [setattr] live in a [gmap] keyed by the attribute name.  The external
    components (preprocessors, processors) are functions that return a value
    or raise. *)

From Stdlib Require Import ZArith Lia Ascii.
From stdpp Require Import gmap strings list fin_maps pretty.

Local Open Scope Z_scope.

(** ** Exceptions and fallible results *)

(** The exceptions that matter to the class.  [RaisedException] stands for
    any other subclass of [Exception] an external component raises;
    [RaisedBaseException] for the ones that derive from [BaseException] only
    ([KeyboardInterrupt], [SystemExit]), which [except Exception] lets
    through. *)
Inductive exn : Type :=
  | AttributeError (name : string)
  | AssertionError
  | IndexError
  | ZeroDivisionError
  | RaisedException (msg : string)
  | RaisedBaseException (msg : string).

(** [isinstance(e, Exception)]. *)
Definition is_Exception (e : exn) : bool :=
  match e with
  | RaisedBaseException _ => false
  | _ => true
  end.

Inductive result (A : Type) : Type :=
  | Ok (a : A)
  | Err (e : exn).
Arguments Ok {A} a.
Arguments Err {A} e.

#[global] Instance result_ret : MRet result := λ A a, Ok a.
#[global] Instance result_bind : MBind result := λ A B f r,
  match r with
  | Ok a => f a
  | Err e => Err e
  end.

(** A [for] loop over [l], in a monad with exceptions: the loop stops at
    the first one. *)
Fixpoint for_each `{MRet M, MBind M} {A S : Type} (l : list A)
    (body : A → S → M S) (s : S) : M S :=
  match l with
  | [] => mret s
  | x :: l' => s' ← body x s; for_each l' body s'
  end.

(** [enumerate(l)]. *)
Definition enumerate {A : Type} (l : list A) : list (nat * A) := imap pair l.

(** ** Attribute names: [f"{per_modality}_{i}"] *)

Definition attr_name (per_modality : string) (i : nat) : string :=
  per_modality +:+ ("_" +:+ pretty i).

(** Every character of [s] is a decimal digit. *)
Definition is_digit (c : ascii) : bool :=
  bool_decide (c ∈ ["0"; "1"; "2"; "3"; "4"; "5"; "6"; "7"; "8"; "9"]%char).

Fixpoint all_digits (s : string) : bool :=
  match s with
  | EmptyString => true
  | String c s' => is_digit c && all_digits s'
  end.

Lemma pretty_N_char_digit (x : N) : is_digit (pretty_N_char x) = true.
Proof. unfold pretty_N_char. by repeat case_match. Qed.

Lemma pretty_N_go_digits (x : N) (s : string) :
  all_digits s = true → all_digits (pretty_N_go x s) = true.
Proof.
  revert s. induction (N.lt_wf_0 x) as [x _ IH]; intros s Hs.
  destruct (decide (x = 0%N)) as [->|Hx].
  - by rewrite pretty_N_go_0.
  - rewrite pretty_N_go_step by lia. apply IH.
    + apply N.div_lt; lia.
    + simpl. by rewrite pretty_N_char_digit.
Qed.

Lemma pretty_nat_digits (i : nat) : all_digits (pretty i) = true.
Proof.
  unfold pretty, pretty_nat, pretty, pretty_N.
  case_decide; [done|]. by apply pretty_N_go_digits.
Qed.

Lemma all_digits_no_underscore (m d : string) :
  all_digits (m +:+ ("_" +:+ d)) = false.
Proof.
  induction m as [|c m IH]; simpl; [done|].
  rewrite IH. apply andb_false_r.
Qed.

(** The part of [s] after its last underscore, if it has one. *)
Fixpoint after_last_underscore (s : string) : option string :=
  match s with
  | EmptyString => None
  | String c s' =>
      match after_last_underscore s' with
      | Some r => Some r
      | None => if decide (c = "_"%char) then Some s' else None
      end
  end.

Lemma after_last_underscore_digits (d : string) :
  all_digits d = true → after_last_underscore d = None.
Proof.
  induction d as [|c d IH]; simpl; [done|].
  intros [Hc Hd]%andb_true_iff. rewrite IH by done.
  case_decide; [by subst c|done].
Qed.

Lemma after_last_underscore_app (m d : string) :
  all_digits d = true → after_last_underscore (m +:+ ("_" +:+ d)) = Some d.
Proof.
  intros Hd. induction m as [|c m IH]; simpl.
  - by rewrite after_last_underscore_digits.
  - by rewrite IH.
Qed.

(** A name splits in one way only at its last underscore. *)
Lemma split_last_underscore (m1 m2 d1 d2 : string) :
  all_digits d1 = true → all_digits d2 = true →
  m1 +:+ ("_" +:+ d1) = m2 +:+ ("_" +:+ d2) → m1 = m2 ∧ d1 = d2.
Proof.
  intros Hd1 Hd2 Heq.
  assert (d1 = d2) as <-.
  { apply (f_equal after_last_underscore) in Heq.
    rewrite !after_last_underscore_app in Heq by done. congruence. }
  split; [|done]. revert m2 Heq.
  assert (Hnil : ∀ m, "_" +:+ d1 ≠ String "_" (m +:+ ("_" +:+ d1))).
  { intros m [= H]. change ("" +:+ d1) with d1 in H.
    apply (f_equal all_digits) in H.
    rewrite all_digits_no_underscore in H. congruence. }
  induction m1 as [|c1 m1 IH]; intros [|c2 m2] Heq.
  - done.
  - change ("_" +:+ d1 = String c2 (m2 +:+ ("_" +:+ d1))) in Heq.
    assert (c2 = "_"%char) as -> by (by injection Heq). by destruct (Hnil m2).
  - change (String c1 (m1 +:+ ("_" +:+ d1)) = "_" +:+ d1) in Heq.
    assert (c1 = "_"%char) as -> by (by injection Heq). by destruct (Hnil m1).
  - injection Heq as -> Heq. f_equal. by apply IH.
Qed.

Lemma attr_name_inj (m1 m2 : string) (i1 i2 : nat) :
  attr_name m1 i1 = attr_name m2 i2 → m1 = m2 ∧ i1 = i2.
Proof.
  intros H. apply split_last_underscore in H as [-> H];
    auto using pretty_nat_digits.
  split; [done|]. by apply (inj pretty).
Qed.

(** The names built from a modality and a group number never clash with the
    attributes the class sets by name. *)
Lemma attr_name_not_fixed (m : string) (i : nat) :
  attr_name m i ∉
    ["processors"; "is_training"; "_consecutive_errors"; "lengths"].
Proof.
  assert (Hno : ∀ s d, after_last_underscore s = d →
            match d with Some r => all_digits r = false | None => True end →
            attr_name m i ≠ s).
  { intros s d Hs Hd H. rewrite <-H in Hs. unfold attr_name in Hs.
    rewrite after_last_underscore_app in Hs by apply pretty_nat_digits.
    subst d. by rewrite pretty_nat_digits in Hd. }
  rewrite !elem_of_cons, elem_of_nil.
  intros [H|[H|[H|[H|[]]]]]; revert H; by eapply Hno.
Qed.

(** ** The class *)

Section BaseDataset.
(** [pd.DataFrame], the values of a feature column and the tensors a
    processor produces are opaque to the class. *)
Context {DataFrame value tensor : Type}.

(** [GET_ITEM_ERROR_RETRY], imported from [..constants]. *)
Variable GET_ITEM_ERROR_RETRY : Z.

(** The model-agnostic features of one modality: a dictionary from column
    names to columns, in insertion order. *)
Definition features : Type := list (string * list value).

(** [MultiModalFeaturePreprocessor]: a preprocessor applied to [m] and
    [data] is [getattr(per_preprocessor, f"transform_{m}")(data)]; one
    without that method returns [Err (AttributeError _)]. *)
Definition MultiModalFeaturePreprocessor : Type :=
  string → DataFrame → result features.

(** A per-model processor, called as
    [per_model_processor(per_modality_features, idx, is_training)]. *)
Definition processor : Type :=
  features → Z → bool → result (gmap string tensor).

(** One entry of [processors]: modality ↦ processors of that modality, in
    insertion order. *)
Definition processors_group : Type := list (string * list processor).

Record BaseDataset : Type := mkBaseDataset {
  processors : list processors_group;
  is_training : bool;
  _consecutive_errors : Z;
  lengths : list Z;
  (** the attributes [<modality>_<i>] created by [setattr] *)
  attrs : gmap string features;
}.

Definition setattr (self : BaseDataset) (name : string) (v : features)
    : BaseDataset :=
  mkBaseDataset (processors self) (is_training self)
    (_consecutive_errors self) (lengths self) (<[name := v]> (attrs self)).

Definition lengths_append (self : BaseDataset) (n : Z) : BaseDataset :=
  mkBaseDataset (processors self) (is_training self)
    (_consecutive_errors self) (lengths self ++ [n]) (attrs self).

Definition set_consecutive_errors (self : BaseDataset) (n : Z)
    : BaseDataset :=
  mkBaseDataset (processors self) (is_training self) n (lengths self)
    (attrs self).

Definition getattr (self : BaseDataset) (name : string) : result features :=
  match attrs self !! name with
  | Some v => Ok v
  | None => Err (AttributeError name)
  end.

(** *** [__init__] *)

(** The body of the inner loop of [__init__].  The [match] is both the
    test [if per_modality_features:] and
    [per_modality_features[next(iter(per_modality_features))]], the column
    of the first key. *)
Definition init_modality (data : DataFrame) (i : nat)
    (per_preprocessor : MultiModalFeaturePreprocessor)
    (per_modality : string) (self : BaseDataset) : result BaseDataset :=
  per_modality_features ← per_preprocessor per_modality data;
  let self := setattr self (attr_name per_modality i) per_modality_features in
  match per_modality_features with
  | [] => mret self
  | (_, column) :: _ => mret (lengths_append self (Z.of_nat (length column)))
  end.

(** The two loops of [__init__], before the assertion. *)
Definition init_loops (data : DataFrame)
    (preprocessor : list MultiModalFeaturePreprocessor)
    (processors : list processors_group) (is_training : bool)
    : result BaseDataset :=
  for_each (enumerate (zip preprocessor processors))
    (λ '(i, (per_preprocessor, per_processors_group)) self,
       for_each per_processors_group.*1
         (init_modality data i per_preprocessor) self)
    (mkBaseDataset processors is_training 0 [] ∅).

Definition __init__ (data : DataFrame)
    (preprocessor : list MultiModalFeaturePreprocessor)
    (processors : list processors_group) (is_training : bool)
    : result BaseDataset :=
  self ← init_loops data preprocessor processors is_training;
  if bool_decide (size (list_to_set (C:=gset Z) (lengths self)) = 1%nat)
  then mret self
  else Err AssertionError.

(** *** [__len__] *)

Definition __len__ (self : BaseDataset) : result Z :=
  match lengths self with
  | n :: _ => Ok n
  | [] => Err IndexError
  end.

(** *** [__getitem__] *)

(** The calls [__getitem__] makes to the external processors are recorded:
    which processor, registered under which modality of which group, and
    the three arguments it received. *)
Record call : Type := mkCall {
  call_group : nat;
  call_modality : string;
  call_processor : processor;
  call_features : features;
  call_idx : Z;
  call_is_training : bool;
}.

(** A computation that records calls and returns or raises. *)
Definition traced (A : Type) : Type := (list call * result A)%type.

#[global] Instance traced_ret : MRet traced := λ A a, ([], Ok a).
#[global] Instance traced_bind : MBind traced := λ A B f c,
  match c with
  | (t, Ok a) => let '(t', r) := f a in (t ++ t', r)
  | (t, Err e) => (t, Err e)
  end.

Definition untraced {A : Type} (r : result A) : traced A := ([], r).

Definition invoke (i : nat) (per_modality : string)
    (per_model_processor : processor) (per_modality_features : features)
    (idx : Z) (is_training : bool) : traced (gmap string tensor) :=
  ([mkCall i per_modality per_model_processor per_modality_features idx
      is_training],
   per_model_processor per_modality_features idx is_training).

(** [bool(per_modality_features)]: a dictionary is true when not empty. *)
Definition truthy (f : features) : bool :=
  match f with
  | [] => false
  | _ :: _ => true
  end.

(** The body of the innermost loop; [ret.update(d)] is [d ∪ ret], where
    the entries of [d] win. *)
Definition prepare_processor (self : BaseDataset) (idx : Z) (i : nat)
    (per_modality : string) (per_model_processor : processor)
    (ret : gmap string tensor) : traced (gmap string tensor) :=
  per_modality_features ← untraced (getattr self (attr_name per_modality i));
  if truthy per_modality_features then
    d ← invoke i per_modality per_model_processor per_modality_features
          idx (is_training self);
    mret (d ∪ ret)
  else mret ret.

(** The [try] block: the three loops, starting from [ret = dict()]. *)
Definition prepare (self : BaseDataset) (idx : Z)
    : traced (gmap string tensor) :=
  for_each (enumerate (processors self))
    (λ '(i, per_processors_group) ret,
       for_each per_processors_group
         (λ '(per_modality, per_modality_processors) ret,
            for_each per_modality_processors
              (prepare_processor self idx i per_modality) ret)
         ret)
    ∅.

(** [__getitem__], with the depth of its recursion bounded by [fuel];
    [None] when the fuel runs out.  The result is the object after the call,
    the calls made and what the call returned or raised.  An exception
    raised inside the [except] block ([__len__], the modulo) propagates
    after the counter was incremented. *)
Fixpoint getitem_fuel (fuel : nat) (self : BaseDataset) (idx : Z)
    : option (BaseDataset * traced (gmap string tensor)) :=
  match fuel with
  | O => None
  | S fuel' =>
      match prepare self idx with
      | (t, Ok ret) => Some (set_consecutive_errors self 0, (t, Ok ret))
      | (t, Err e) =>
          if is_Exception e then
            let self := set_consecutive_errors self
                          (_consecutive_errors self + 1) in
            if _consecutive_errors self <? GET_ITEM_ERROR_RETRY then
              match __len__ self with
              | Err e' => Some (self, (t, Err e'))
              | Ok n =>
                  if n =? 0 then Some (self, (t, Err ZeroDivisionError))
                  else
                    '(self', (t', r)) ← getitem_fuel fuel' self
                                          ((idx + 1) `mod` n);
                    Some (self', (t ++ t', r))
              end
            else Some (self, (t, Err e))
          else Some (self, (t, Err e))
      end
  end.

(** Every failed preparation that is retried brings the counter one closer
    to the bound, so this much fuel is never used up (see
    [getitem_fuel_enough]). *)
Definition __getitem__ (self : BaseDataset) (idx : Z)
    : option (BaseDataset * traced (gmap string tensor)) :=
  getitem_fuel
    (S (Z.to_nat (GET_ITEM_ERROR_RETRY - _consecutive_errors self)))
    self idx.

(** *** The vocabulary of the description *)

(** The processors registered in [processors], in the order of the three
    loops: group number, modality, processor. *)
Definition registered (procs : list processors_group)
    : list (nat * string * processor) :=
  '(i, per_processors_group) ← enumerate procs;
  '(per_modality, per_modality_processors) ← per_processors_group;
  per_model_processor ← per_modality_processors;
  [(i, per_modality, per_model_processor)].

(** The features stored for modality [m] of group [i]; none stored counts
    as empty. *)
Definition stored (self : BaseDataset) (i : nat) (m : string) : features :=
  default [] (attrs self !! attr_name m i).

(** What the processors of [l] return for sample [idx], for the
    modalities whose stored features are not empty, and the calls that
    produce it. *)
Definition outputs_along (self : BaseDataset) (idx : Z)
    (l : list (nat * string * processor))
    : list (result (gmap string tensor)) :=
  '(i, m, p) ← l;
  if truthy (stored self i m)
  then [p (stored self i m) idx (is_training self)]
  else [].

Definition calls_along (self : BaseDataset) (idx : Z)
    (l : list (nat * string * processor)) : list call :=
  '(i, m, p) ← l;
  if truthy (stored self i m)
  then [mkCall i m p (stored self i m) idx (is_training self)]
  else [].

Definition delegated (self : BaseDataset) (idx : Z)
    : list (result (gmap string tensor)) :=
  outputs_along self idx (registered (processors self)).

Definition delegated_calls (self : BaseDataset) (idx : Z) : list call :=
  calls_along self idx (registered (processors self)).

(** [c] is the call of a processor of [l] on the features stored for its
    own modality and group, sample [idx] and the training flag. *)
Definition call_ok (self : BaseDataset) (idx : Z)
    (l : list (nat * string * processor)) (c : call) : Prop :=
  (call_group c, call_modality c, call_processor c) ∈ l
  ∧ attrs self !! attr_name (call_modality c) (call_group c)
      = Some (call_features c)
  ∧ call_idx c = idx
  ∧ call_is_training c = is_training self.

(** The union of [ds], merged from left to right: on a shared key the
    later dictionary wins. *)
Definition merged (ds : list (gmap string tensor)) : gmap string tensor :=
  foldl (λ ret d, d ∪ ret) ∅ ds.

(** What [__init__] goes through, in order: for each position [i] of the
    zipped lists, the [i]-th preprocessor and each modality named in the
    [i]-th group. *)
Definition zipped_modalities
    (preprocessor : list MultiModalFeaturePreprocessor)
    (procs : list processors_group)
    : list (nat * MultiModalFeaturePreprocessor * string) :=
  '(i, (per_preprocessor, per_processors_group)) ←
     enumerate (zip preprocessor procs);
  per_modality ← per_processors_group.*1;
  [(i, per_preprocessor, per_modality)].

(** The sample count of a feature collection: the length of its first
    column; an empty collection has none. *)
Definition sample_count (f : features) : option Z :=
  match f with
  | [] => None
  | (_, column) :: _ => Some (Z.of_nat (length column))
  end.

(** The lengths and the attributes the loops of [__init__] record along a
    list of (position, preprocessor, modality). *)
Definition recorded_lengths (data : DataFrame)
    (l : list (nat * MultiModalFeaturePreprocessor * string)) : list Z :=
  omap (λ '(i, pp, m),
          match pp m data with
          | Ok f => sample_count f
          | Err _ => None
          end) l.

Definition recorded_attrs (data : DataFrame)
    (l : list (nat * MultiModalFeaturePreprocessor * string))
    (a : gmap string features) : gmap string features :=
  foldl (λ a '(i, pp, m),
           match pp m data with
           | Ok f => <[attr_name m i := f]> a
           | Err _ => a
           end) a l.

(** [f] is the feature collection some modality of the zipped lists
    produces. *)
Definition produced (data : DataFrame)
    (preprocessor : list MultiModalFeaturePreprocessor)
    (procs : list processors_group) (f : features) : Prop :=
  ∃ i pp g m, preprocessor !! i = Some pp ∧ procs !! i = Some g
            ∧ m ∈ g.*1 ∧ pp m data = Ok f.

(** At least one modality produces a non-empty collection, and the
    non-empty collections all have the same sample count. *)
Definition one_sample_count (data : DataFrame)
    (preprocessor : list MultiModalFeaturePreprocessor)
    (procs : list processors_group) : Prop :=
  (∃ f, produced data preprocessor procs f ∧ f ≠ [])
  ∧ ∃ n, ∀ f, produced data preprocessor procs f → f ≠ [] →
             sample_count f = Some n.

(** The index of the [j]-th preparation of a call [__getitem__(idx)] on a
    dataset of length [n]: [idx] itself, then the following indices,
    wrapping around. *)
Definition retry_index (n idx : Z) (j : nat) : Z :=
  match j with
  | O => idx
  | S _ => (idx + Z.of_nat j) `mod` n
  end.

(** Preparing sample [idx] raises an [Exception]. *)
Definition fails (self : BaseDataset) (idx : Z) : bool :=
  match (prepare self idx).2 with
  | Ok _ => false
  | Err e => is_Exception e
  end.

(** The calls made by the first [k] preparations of [__getitem__(idx)]. *)
Definition attempted_calls (self : BaseDataset) (n idx : Z) (k : nat)
    : list call :=
  j ← seq 0 k; (prepare self (retry_index n idx j)).1.
End BaseDataset.

(** ** Small datasets *)

Module Example.
(** Three samples with a text column and a label column; the data frame
    itself is not looked into. *)
Definition text : @features Z := [("text_token_ids", [101; 102; 103])].
Definition label : @features Z := [("label", [0; 1; 0])].

Definition preprocessor : @MultiModalFeaturePreprocessor unit Z := λ m _,
  if decide (m = "text") then Ok text
  else if decide (m = "label") then Ok label
  else Err (AttributeError ("transform_" +:+ m)).

(** A processor that returns entry [idx] of the first column. *)
Definition pick : @processor Z Z := λ f idx _,
  match f with
  | (k, column) :: _ =>
      match (if decide (0 ≤ idx) then column !! Z.to_nat idx else None) with
      | Some v => Ok {[k := v]}
      | None => Err IndexError
      end
  | [] => Err IndexError
  end.

(** The same, but the last sample cannot be processed. *)
Definition pick_but_last : @processor Z Z := λ f idx is_training,
  if decide (idx = 2) then Err (RaisedException "corrupt sample")
  else pick f idx is_training.

(** A processor that always raises. *)
Definition broken : @processor Z Z := λ _ _ _,
  Err (RaisedException "broken").

Definition processors : list (@processors_group Z Z) :=
  [[("text", [pick_but_last]); ("label", [pick])]].

(** [BaseDataset(data, [preprocessor], processors)] *)
Definition dataset : @BaseDataset Z Z :=
  mkBaseDataset processors false 0 [3; 3]
    (<["label_0" := label]> (<["text_0" := text]> ∅)).

(** A dataset none of whose samples can be prepared. *)
Definition broken_dataset : @BaseDataset Z Z :=
  mkBaseDataset [[("text", [broken])]] false 0 [3] (<["text_0" := text]> ∅).

(** A processor that never raises: the size of each column. *)
Definition column_sizes : @processor Z Z := λ f _ _,
  Ok (list_to_map ((λ '(k, column), (k, Z.of_nat (length column))) <$> f)).

(** Two processor groups, one preprocessor. *)
Definition two_groups : list (@processors_group Z Z) :=
  [[("text", [column_sizes])]; [("label", [column_sizes])]].

Definition short_dataset : @BaseDataset Z Z :=
  mkBaseDataset two_groups false 0 [3] (<["text_0" := text]> ∅).

(** A preprocessor whose label column is one sample short. *)
Definition ragged_preprocessor : @MultiModalFeaturePreprocessor unit Z :=
  λ m _,
    if decide (m = "text") then Ok text
    else if decide (m = "label") then Ok [("label", [0; 1])]
    else Err (AttributeError ("transform_" +:+ m)).

(** A data frame without rows: the text column is there, and empty. *)
Definition empty_preprocessor : @MultiModalFeaturePreprocessor unit Z :=
  λ m _,
    if decide (m = "text") then Ok [("text_token_ids", [])]
    else Err (AttributeError ("transform_" +:+ m)).

Definition empty_dataset : @BaseDataset Z Z :=
  mkBaseDataset [[("text", [pick])]] false 0 [0]
    (<["text_0" := [("text_token_ids", [])]]> ∅).

(** A preprocessor that knows the text modality only. *)
Definition text_preprocessor : @MultiModalFeaturePreprocessor unit Z :=
  λ m _,
    if decide (m = "text") then Ok text
    else Err (AttributeError ("transform_" +:+ m)).

(** A processor stopped from the keyboard. *)
Definition interrupted : @processor Z Z := λ _ _ _,
  Err (RaisedBaseException "KeyboardInterrupt").

Definition interrupted_dataset : @BaseDataset Z Z :=
  mkBaseDataset [[("text", [interrupted])]] false 0 [3]
    (<["text_0" := text]> ∅).

(** A text processor that works and one that does not. *)
Definition half_broken_dataset : @BaseDataset Z Z :=
  mkBaseDataset [[("text", [pick; broken]); ("label", [pick])]] false 0
    [3; 3] (<["label_0" := label]> (<["text_0" := text]> ∅)).

(** Two processors of one modality that write the same key. *)
Definition clashing_dataset : @BaseDataset Z Z :=
  mkBaseDataset [[("text", [pick; column_sizes])]] false 0 [3]
    (<["text_0" := text]> ∅).
End Example.

(** * Properties *)

(** ** Loops *)

Section for_each.
Context `{MRet M, MBind M}.
Hypothesis bind_ret_l : ∀ {A B} (a : A) (f : A → M B), mret a ≫= f = f a.
Hypothesis bind_assoc : ∀ {A B C} (m : M A) (f : A → M B) (g : B → M C),
  (m ≫= f) ≫= g = m ≫= (λ a, f a ≫= g).
Hypothesis bind_ext : ∀ {A B} (m : M A) (f g : A → M B),
  (∀ a, f a = g a) → m ≫= f = m ≫= g.

Lemma for_each_ext {A S} (l : list A) (body1 body2 : A → S → M S) (s : S) :
  (∀ x s, body1 x s = body2 x s) →
  for_each l body1 s = for_each l body2 s.
Proof using bind_ext.
  intros Hb. revert s. induction l as [|x l IH]; intros s; simpl; [done|].
  rewrite Hb. by apply bind_ext.
Qed.

Lemma for_each_app {A S} (l1 l2 : list A) (body : A → S → M S) (s : S) :
  for_each (l1 ++ l2) body s = for_each l1 body s ≫= for_each l2 body.
Proof using bind_ret_l bind_assoc bind_ext.
  revert s. induction l1 as [|x l1 IH]; intros s; simpl.
  - by rewrite bind_ret_l.
  - rewrite bind_assoc. by apply bind_ext.
Qed.

(** A loop over a nest of lists is the nest of loops. *)
Lemma for_each_nested {A B S} (l : list A) (f : A → list B)
    (body : B → S → M S) (s : S) :
  for_each (l ≫= f) body s = for_each l (λ x, for_each (f x) body) s.
Proof using bind_ret_l bind_assoc bind_ext.
  revert s. induction l as [|x l IH]; intros s; simpl; [done|].
  rewrite for_each_app. by apply bind_ext.
Qed.
End for_each.

Lemma result_bind_ret_l {A B} (a : A) (f : A → result B) : mret a ≫= f = f a.
Proof. done. Qed.

Lemma result_bind_assoc {A B C} (m : result A) (f : A → result B)
    (g : B → result C) :
  (m ≫= f) ≫= g = m ≫= (λ a, f a ≫= g).
Proof. by destruct m. Qed.

Lemma result_bind_ext {A B} (m : result A) (f g : A → result B) :
  (∀ a, f a = g a) → m ≫= f = m ≫= g.
Proof. intros Hfg. destruct m; simpl; [apply Hfg|done]. Qed.

Lemma result_bind_ret_r {A} (m : result A) : m ≫= mret = m.
Proof. by destruct m. Qed.

Lemma result_bind_Ok {A B} (m : result A) (f : A → result B) (b : B) :
  m ≫= f = Ok b ↔ ∃ a, m = Ok a ∧ f a = Ok b.
Proof.
  destruct m as [a|e]; simpl; split.
  - intros Hf. by exists a.
  - by intros (a' & [= <-] & Hf).
  - done.
  - by intros (a' & [=] & _).
Qed.

Section traced.
Context {value tensor : Type}.
Local Abbreviation traced := (@traced value tensor).

Lemma traced_bind_ret_l {A B} (a : A) (f : A → traced B) :
  mret a ≫= f = f a.
Proof. unfold mret, traced_ret, mbind, traced_bind. by destruct (f a). Qed.

Lemma traced_bind_assoc {A B C} (m : traced A) (f : A → traced B)
    (g : B → traced C) :
  (m ≫= f) ≫= g = m ≫= (λ a, f a ≫= g).
Proof.
  unfold mbind, traced_bind. destruct m as [t [a|e]]; [|done].
  destruct (f a) as [t' [b|e]]; [|done].
  destruct (g b) as [t'' r]. by rewrite (assoc_L (++)).
Qed.

Lemma traced_bind_ext {A B} (m : traced A) (f g : A → traced B) :
  (∀ a, f a = g a) → m ≫= f = m ≫= g.
Proof.
  intros Hfg. unfold mbind, traced_bind.
  destruct m as [t [a|e]]; [by rewrite Hfg|done].
Qed.

Lemma traced_bind_ret_r {A} (m : traced A) : m ≫= mret = m.
Proof.
  unfold mbind, traced_bind, mret, traced_ret.
  destruct m as [t [a|e]]; [|done]. by rewrite (right_id_L [] (++)).
Qed.

(** What a sequence of two traced steps does. *)
Lemma traced_bind_eq {A B} (m : traced A) (f : A → traced B) :
  m ≫= f =
    match m.2 with
    | Ok a => (m.1 ++ (f a).1, (f a).2)
    | Err e => (m.1, Err e)
    end.
Proof.
  unfold mbind, traced_bind. destruct m as [t [a|e]]; simpl; [|done].
  by destruct (f a).
Qed.
End traced.

(** ** The [try] block *)

Section prepare.
Context {value tensor : Type}.
Implicit Types (self : @BaseDataset value tensor) (idx : Z).
Implicit Types (ret d : gmap string tensor).

(** The three loops as one loop over the registered processors. *)
Lemma prepare_registered self idx :
  prepare self idx =
    for_each (registered (processors self))
      (λ '(i, m, p), prepare_processor self idx i m p) ∅.
Proof.
  unfold prepare, registered.
  rewrite (for_each_nested (@traced_bind_ret_l _ _) (@traced_bind_assoc _ _)
             (@traced_bind_ext _ _)).
  apply (for_each_ext (@traced_bind_ext _ _)). intros [i g] ret.
  rewrite (for_each_nested (@traced_bind_ret_l _ _) (@traced_bind_assoc _ _)
             (@traced_bind_ext _ _)).
  apply (for_each_ext (@traced_bind_ext _ _)). intros [m ps] ret'.
  rewrite (for_each_nested (@traced_bind_ret_l _ _) (@traced_bind_assoc _ _)
             (@traced_bind_ext _ _)).
  apply (for_each_ext (@traced_bind_ext _ _)). intros p ret''. simpl.
  symmetry. apply traced_bind_ret_r.
Qed.

(** One round of the innermost loop, case by case. *)
Lemma prepare_processor_eq self idx i m p ret :
  prepare_processor self idx i m p ret =
    match attrs self !! attr_name m i with
    | None => ([], Err (AttributeError (attr_name m i)))
    | Some f =>
        if truthy f then
          ([mkCall i m p f idx (is_training self)],
           match p f idx (is_training self) with
           | Ok d => Ok (d ∪ ret)
           | Err e => Err e
           end)
        else ([], Ok ret)
    end.
Proof.
  unfold prepare_processor, getattr, untraced.
  destruct (attrs self !! attr_name m i) as [f|]; simpl; [|done].
  destruct (truthy f); simpl; [|done].
  by destruct (p f idx (is_training self)).
Qed.

Lemma outputs_along_cons self idx i m p l :
  outputs_along self idx ((i, m, p) :: l) =
    (if truthy (stored self i m)
     then [p (stored self i m) idx (is_training self)] else [])
    ++ outputs_along self idx l.
Proof. done. Qed.

Lemma calls_along_cons self idx i m p l :
  calls_along self idx ((i, m, p) :: l) =
    (if truthy (stored self i m)
     then [mkCall i m p (stored self i m) idx (is_training self)] else [])
    ++ calls_along self idx l.
Proof. done. Qed.

(** A loop that completes has called every processor of a non-empty
    modality once, in order, and merged exactly what they returned. *)
Lemma for_each_prepare_Ok self idx l ret t d :
  for_each l (λ '(i, m, p), prepare_processor self idx i m p) ret
    = (t, Ok d) →
  ∃ ds, outputs_along self idx l = Ok <$> ds
      ∧ d = foldl (λ ret d, d ∪ ret) ret ds
      ∧ t = calls_along self idx l.
Proof.
  revert ret t d. induction l as [|[[i m] p] l IH]; intros ret t d.
  - intros [= <- <-]. by exists [].
  - cbn [for_each]. rewrite traced_bind_eq, prepare_processor_eq.
    rewrite outputs_along_cons, calls_along_cons. unfold stored.
    destruct (attrs self !! attr_name m i) as [f|]; simpl; [|done].
    destruct (truthy f); simpl.
    + destruct (p f idx (is_training self)) as [d'|e]; simpl; [|done].
      intros [= <- Hd].
      destruct (for_each l _ (d' ∪ ret)) as [t' r] eqn:Hl. simpl in Hd.
      subst r. apply IH in Hl as (ds & Hds & -> & ->).
      exists (d' :: ds). by rewrite Hds.
    + intros [= <- Hd].
      destruct (for_each l _ ret) as [t' r] eqn:Hl. simpl in Hd.
      subst r. apply IH in Hl as (ds & Hds & -> & ->). by exists ds.
Qed.

(** Conversely: when every attribute is there and no processor raises,
    the loop completes. *)
Lemma for_each_prepare_complete self idx l ret ds :
  (∀ i m p, (i, m, p) ∈ l → is_Some (attrs self !! attr_name m i)) →
  outputs_along self idx l = Ok <$> ds →
  for_each l (λ '(i, m, p), prepare_processor self idx i m p) ret
    = (calls_along self idx l, Ok (foldl (λ ret d, d ∪ ret) ret ds)).
Proof.
  revert ret ds. induction l as [|[[i m] p] l IH]; intros ret ds Hattr.
  - intros Hds. symmetry in Hds. apply fmap_nil_inv in Hds as ->. done.
  - cbn [for_each]. rewrite traced_bind_eq, prepare_processor_eq.
    rewrite outputs_along_cons, calls_along_cons. unfold stored.
    pose proof (Hattr i m p (list_elem_of_here _ _)) as Hf.
    destruct (attrs self !! attr_name m i) as [f|]; simpl;
      [clear Hf|by destruct Hf].
    assert (Hattr' : ∀ i m p, (i, m, p) ∈ l →
              is_Some (attrs self !! attr_name m i)).
    { intros ??? ?. eapply Hattr. by right. }
    destruct (truthy f); simpl.
    + destruct ds as [|d' ds]; [done|]. intros [= Hp Hds].
      rewrite Hp. simpl. by rewrite (IH _ _ Hattr' Hds).
    + intros Hds. by rewrite (IH _ _ Hattr' Hds).
Qed.

(** Whatever the outcome, each call made is the call of a registered
    processor on the features stored for its own modality and group, the
    index being prepared and the training flag. *)
Lemma for_each_prepare_calls self idx l ret :
  Forall (call_ok self idx l)
    (for_each l (λ '(i, m, p), prepare_processor self idx i m p) ret).1.
Proof.
  revert ret. induction l as [|[[i m] p] l IH]; intros ret; [by left|].
  assert (Hl : ∀ ret', Forall (call_ok self idx ((i, m, p) :: l))
     (for_each l (λ '(i, m, p), prepare_processor self idx i m p) ret').1).
  { intros ret'. eapply Forall_impl; [apply IH|].
    intros c (? & ? & ? & ?). split; [by right|done]. }
  cbn [for_each]. rewrite traced_bind_eq, prepare_processor_eq.
  destruct (attrs self !! attr_name m i) as [f|] eqn:Hf; simpl; [|apply Forall_nil_2].
  destruct (truthy f); simpl; [|apply Hl].
  assert (Hc : call_ok self idx ((i, m, p) :: l)
                 (mkCall i m p f idx (is_training self))).
  { split; [left|done]. }
  destruct (p f idx (is_training self)) as [d'|e]; simpl.
  - constructor; [done|apply Hl].
  - by constructor.
Qed.
End prepare.

(** ** The retry loop *)

Section getitem.
Context {value tensor : Type}.
Variable GET_ITEM_ERROR_RETRY : Z.
Implicit Types (self : @BaseDataset value tensor) (idx n : Z).
Local Abbreviation getitem := (__getitem__ GET_ITEM_ERROR_RETRY).
Local Abbreviation getitem_fuel := (getitem_fuel GET_ITEM_ERROR_RETRY).

(** The [try] block does not read the counter. *)
Lemma prepare_set_consecutive_errors self k idx :
  prepare (set_consecutive_errors self k) idx = prepare self idx.
Proof. done. Qed.

Lemma fails_set_consecutive_errors self k idx :
  fails (set_consecutive_errors self k) idx = fails self idx.
Proof. done. Qed.

(** With more fuel than the counter is away from the bound, the fuel does
    not run out, and how much more there is does not matter. *)
Lemma getitem_fuel_stable (fuel1 fuel2 : nat) self idx :
  (Z.to_nat (GET_ITEM_ERROR_RETRY - _consecutive_errors self) < fuel1)%nat →
  (Z.to_nat (GET_ITEM_ERROR_RETRY - _consecutive_errors self) < fuel2)%nat →
  getitem_fuel fuel1 self idx = getitem_fuel fuel2 self idx
  ∧ is_Some (getitem_fuel fuel1 self idx).
Proof.
  revert fuel2 self idx.
  induction fuel1 as [|fuel1 IH]; intros [|fuel2] self idx H1 H2; try lia.
  simpl. destruct (prepare self idx) as [t [ret|e]]; [by eauto|].
  destruct (is_Exception e); [|by eauto].
  destruct (Z.ltb_spec (_consecutive_errors self + 1) GET_ITEM_ERROR_RETRY)
    as [Hlt|Hge]; [|by eauto].
  destruct (__len__ _) as [n|e']; [|by eauto].
  destruct (n =? 0); [by eauto|].
  destruct (IH fuel2
              (set_consecutive_errors self (_consecutive_errors self + 1))
              ((idx + 1) `mod` n)) as [-> [[self' [t' r]] ->]];
    [simpl; lia..|].
  by eauto.
Qed.

Lemma getitem_fuel_enough (fuel : nat) self idx :
  (Z.to_nat (GET_ITEM_ERROR_RETRY - _consecutive_errors self) < fuel)%nat →
  getitem_fuel fuel self idx = getitem self idx.
Proof. intros. apply getitem_fuel_stable; [done|lia]. Qed.

(** [__getitem__] always returns or raises. *)
Lemma getitem_total self idx : is_Some (getitem self idx).
Proof.
  apply (getitem_fuel_stable _
    (S (Z.to_nat (GET_ITEM_ERROR_RETRY - _consecutive_errors self)))); lia.
Qed.

(** The equation of [__getitem__], as the source has it. *)
Lemma getitem_eq self idx :
  getitem self idx =
    match prepare self idx with
    | (t, Ok ret) => Some (set_consecutive_errors self 0, (t, Ok ret))
    | (t, Err e) =>
        if is_Exception e then
          let self := set_consecutive_errors self
                        (_consecutive_errors self + 1) in
          if _consecutive_errors self <? GET_ITEM_ERROR_RETRY then
            match __len__ self with
            | Err e' => Some (self, (t, Err e'))
            | Ok n =>
                if n =? 0 then Some (self, (t, Err ZeroDivisionError))
                else
                  '(self', (t', r)) ← getitem self ((idx + 1) `mod` n);
                  Some (self', (t ++ t', r))
            end
          else Some (self, (t, Err e))
        else Some (self, (t, Err e))
    end.
Proof.
  unfold __getitem__ at 1. cbn [getitem_fuel].
  destruct (prepare self idx) as [t [ret|e]]; [done|].
  destruct (is_Exception e); [|done]. cbn zeta.
  destruct (Z.ltb_spec
    (_consecutive_errors
       (set_consecutive_errors self (_consecutive_errors self + 1)))
    GET_ITEM_ERROR_RETRY) as [Hlt|Hge]; [|done].
  destruct (__len__ _) as [n|e']; [|done].
  destruct (n =? 0); [done|].
  rewrite getitem_fuel_enough; [done|]. simpl in *. lia.
Qed.

Lemma getitem_returns self idx t ret :
  prepare self idx = (t, Ok ret) →
  getitem self idx = Some (set_consecutive_errors self 0, (t, Ok ret)).
Proof. intros Hp. by rewrite getitem_eq, Hp. Qed.

Lemma getitem_reraises self idx t e :
  prepare self idx = (t, Err e) → is_Exception e = true →
  GET_ITEM_ERROR_RETRY ≤ _consecutive_errors self + 1 →
  getitem self idx =
    Some (set_consecutive_errors self (_consecutive_errors self + 1),
          (t, Err e)).
Proof.
  intros Hp He Hge. rewrite getitem_eq, Hp, He. cbn.
  by destruct (Z.ltb_spec (_consecutive_errors self + 1)
                 GET_ITEM_ERROR_RETRY); [lia|].
Qed.

Lemma getitem_retries self idx n t e :
  prepare self idx = (t, Err e) → is_Exception e = true →
  _consecutive_errors self + 1 < GET_ITEM_ERROR_RETRY →
  __len__ self = Ok n → n ≠ 0 →
  getitem self idx =
    '(self', (t', r)) ←
       getitem (set_consecutive_errors self (_consecutive_errors self + 1))
         ((idx + 1) `mod` n);
    Some (self', (t ++ t', r)).
Proof.
  intros Hp He Hlt Hlen Hn. rewrite getitem_eq, Hp, He. cbn zeta.
  change (__len__ (set_consecutive_errors self _)) with (__len__ self).
  rewrite Hlen. cbn [_consecutive_errors set_consecutive_errors].
  destruct (Z.ltb_spec (_consecutive_errors self + 1)
              GET_ITEM_ERROR_RETRY); [|lia].
  by destruct (Z.eqb_spec n 0).
Qed.

(** The only attribute [__getitem__] changes is the counter. *)
Lemma getitem_fuel_frame (fuel : nat) self idx self' t r :
  getitem_fuel fuel self idx = Some (self', (t, r)) →
  self' = set_consecutive_errors self (_consecutive_errors self').
Proof.
  revert self idx t. induction fuel as [|fuel IH]; intros self idx t;
    [done|]. simpl.
  destruct (prepare self idx) as [t0 [ret|e]]; [by intros [= <- _ _]|].
  destruct (is_Exception e); [|by intros [= <- _ _]; destruct self].
  destruct (_ <? _); [|by intros [= <- _ _]].
  destruct (__len__ _) as [n|e']; [|by intros [= <- _ _]].
  destruct (n =? 0); [by intros [= <- _ _]|].
  destruct (getitem_fuel fuel _ _) as [[self'' [t' r']]|] eqn:Hrec; [|done].
  intros [= <- _ <-]. by apply IH in Hrec.
Qed.

(** The calls [__getitem__] makes: each one is the call of a registered
    processor on the features stored for its modality and group, for the
    requested index or for an index the retry computed modulo the
    length. *)
Lemma getitem_fuel_calls (fuel : nat) self idx self' t r :
  getitem_fuel fuel self idx = Some (self', (t, r)) →
  Forall (λ c, call_ok self (call_idx c) (registered (processors self)) c
             ∧ (call_idx c = idx
                ∨ ∃ n x, __len__ self = Ok n ∧ n ≠ 0
                         ∧ call_idx c = x `mod` n)) t.
Proof.
  revert self idx t. induction fuel as [|fuel IH]; intros self idx t;
    [done|]. simpl.
  pose proof (for_each_prepare_calls self idx (registered (processors self))
                ∅) as Hcalls.
  rewrite <-prepare_registered in Hcalls.
  assert (Hfirst : Forall (λ c,
            call_ok self (call_idx c) (registered (processors self)) c
            ∧ (call_idx c = idx
               ∨ ∃ n x, __len__ self = Ok n ∧ n ≠ 0
                        ∧ call_idx c = x `mod` n)) (prepare self idx).1).
  { eapply Forall_impl; [exact Hcalls|]. intros c Hc.
    assert (call_idx c = idx) as Hi by apply Hc. rewrite Hi. by split; [|left]. }
  clear Hcalls. destruct (prepare self idx) as [t0 [ret|e]]; simpl in Hfirst;
    [by intros [= _ <- _]|].
  destruct (is_Exception e); [|by intros [= _ <- _]].
  destruct (_ <? _); [|by intros [= _ <- _]].
  change (__len__ (set_consecutive_errors self _)) with (__len__ self).
  destruct (__len__ self) as [n|e'] eqn:Hlen; [|by intros [= _ <- _]].
  destruct (Z.eqb_spec n 0) as [|Hn]; [by intros [= _ <- _]|].
  destruct (getitem_fuel fuel _ _) as [[self'' [t' r']]|] eqn:Hrec; [|done].
  intros [= <- <- <-]. apply Forall_app. split; [done|].
  apply IH in Hrec. eapply Forall_impl; [exact Hrec|].
  intros c [Hc Hidx]. split; [exact Hc|]. right.
  destruct Hidx as [->|(n' & x & Hn' & ? & ->)].
  - by exists n, (idx + 1).
  - exists n', x. split; [|done]. by rewrite <-Hn'.
Qed.

(** The retried indices follow one another modulo the length. *)
Lemma retry_index_succ n idx (j : nat) :
  retry_index n ((idx + 1) `mod` n) j = retry_index n idx (S j).
Proof.
  destruct j as [|j]; simpl; [done|].
  rewrite Zplus_mod_idemp_l. f_equal. lia.
Qed.

Lemma retry_index_valid n idx (j : nat) :
  0 ≤ idx < n → retry_index n idx j = (idx + Z.of_nat j) `mod` n.
Proof.
  intros Hidx. destruct j as [|j]; simpl; [|done].
  rewrite Z.add_0_r. by rewrite Z.mod_small.
Qed.

Lemma retry_index_in_range n idx (j : nat) :
  0 ≤ idx < n → 0 ≤ retry_index n idx j < n.
Proof.
  intros Hidx. rewrite retry_index_valid by done.
  apply Z.mod_pos_bound. lia.
Qed.

Lemma attempted_calls_succ self n idx (k : nat) :
  attempted_calls self n idx (S k) =
    (prepare self idx).1 ++ attempted_calls self n ((idx + 1) `mod` n) k.
Proof.
  unfold attempted_calls. cbn [seq mbind list_bind]. f_equal.
  rewrite <-fmap_S_seq. generalize (seq 0 k). intros l.
  induction l as [|j l IH]; [done|].
  cbn [fmap list_fmap mbind list_bind]. by rewrite IH, retry_index_succ.
Qed.

(** [k] failed preparations that stay below the bound: the call goes on
    as a call at the [k]-th index with the counter [k] higher. *)
Lemma getitem_chain (k : nat) self idx n :
  __len__ self = Ok n → n ≠ 0 →
  (∀ j : nat, (j < k)%nat → fails self (retry_index n idx j) = true) →
  _consecutive_errors self + Z.of_nat k < GET_ITEM_ERROR_RETRY →
  getitem self idx =
    '(self', (t', r)) ←
       getitem (set_consecutive_errors self
                  (_consecutive_errors self + Z.of_nat k))
         (retry_index n idx k);
    Some (self', (attempted_calls self n idx k ++ t', r)).
Proof.
  intros Hlen Hn. revert self idx Hlen.
  induction k as [|k IH]; intros self idx Hlen Hfail Hlt.
  - rewrite Z.add_0_r. replace (set_consecutive_errors self _) with self
      by by destruct self.
    simpl. by destruct (getitem self idx) as [[self' [t' r]]|].
  - pose proof (Hfail O ltac:(lia)) as H0. unfold fails in H0. simpl in H0.
    destruct (prepare self idx) as [t [ret|e]] eqn:Hp; [done|].
    simpl in H0.
    rewrite (getitem_retries self idx n t e) by (done || lia).
    rewrite IH; [| done | | simpl; lia].
    + rewrite attempted_calls_succ, Hp. simpl.
      replace (_consecutive_errors self + 1 + Z.of_nat k)
        with (_consecutive_errors self + Z.of_nat (S k)) by lia.
      rewrite retry_index_succ.
      change (set_consecutive_errors (set_consecutive_errors self _) ?x)
        with (set_consecutive_errors self x).
      destruct (getitem _ _) as [[self' [t' r]]|]; simpl; [|done].
      by rewrite (assoc_L (++)).
    + intros j Hj. rewrite fails_set_consecutive_errors, retry_index_succ.
      apply Hfail. lia.
Qed.

(** A call that returns has reset the counter, and returns what the [try]
    block made for one index: [idx] itself unless preparing [idx] failed. *)
Lemma getitem_fuel_Ok_inv (fuel : nat) self idx self' t ret :
  getitem_fuel fuel self idx = Some (self', (t, Ok ret)) →
  _consecutive_errors self' = 0
  ∧ ∃ idx' t', prepare self idx' = (t', Ok ret)
             ∧ (fails self idx = false → idx' = idx ∧ t = t').
Proof.
  revert self idx t. induction fuel as [|fuel IH]; intros self idx t; [done|].
  simpl. unfold fails.
  destruct (prepare self idx) as [t0 [ret0|e]] eqn:Hp; simpl.
  { intros [= <- <- <-]. split; [done|]. by exists idx, t0. }
  destruct (is_Exception e); [|done].
  destruct (_ <? _); [|done].
  destruct (__len__ _) as [n|e']; [|done].
  destruct (n =? 0); [done|].
  destruct (getitem_fuel fuel _ _) as [[self'' [t' r']]|] eqn:Hrec; [|done].
  intros [= <- <- ->]. apply IH in Hrec as (? & idx' & t'' & Hp' & _).
  split; [done|]. by exists idx', t''.
Qed.
End getitem.

(** ** Construction *)

Section init.
Context {DataFrame value tensor : Type}.
Variable data : DataFrame.
Implicit Types (self : @BaseDataset value tensor).
Implicit Types (pp : @MultiModalFeaturePreprocessor DataFrame value).
Implicit Types (procs : list (@processors_group value tensor)).

(** The two loops as one loop over the zipped modalities. *)
Lemma init_loops_zipped pre procs tr :
  init_loops data pre procs tr =
    for_each (zipped_modalities pre procs)
      (λ '(i, pp, m), init_modality data i pp m)
      (mkBaseDataset procs tr 0 [] ∅).
Proof.
  unfold init_loops, zipped_modalities.
  rewrite (for_each_nested (@result_bind_ret_l) (@result_bind_assoc)
             (@result_bind_ext)).
  apply (for_each_ext (@result_bind_ext)). intros [i [pp g]] self.
  rewrite (for_each_nested (@result_bind_ret_l) (@result_bind_assoc)
             (@result_bind_ext)).
  apply (for_each_ext (@result_bind_ext)). intros m self'. simpl.
  symmetry. apply result_bind_ret_r.
Qed.

Lemma elem_of_zipped_modalities pre procs i pp m :
  (i, pp, m) ∈ zipped_modalities pre procs ↔
  ∃ g, pre !! i = Some pp ∧ procs !! i = Some g ∧ m ∈ g.*1.
Proof.
  unfold zipped_modalities, enumerate. rewrite list_elem_of_bind. split.
  - intros ([i' [pp' g]] & Hin & Hz). apply list_elem_of_bind in Hin
      as (m' & Hin & Hm). apply list_elem_of_singleton in Hin as [= -> -> ->].
    apply elem_of_lookup_imap in Hz as (j & [pp'' g'] & [= -> -> ->] & Hz).
    apply lookup_zip_Some in Hz as [??]. eauto.
  - intros (g & Hpp & Hg & Hm). exists (i, (pp, g)). split.
    + apply list_elem_of_bind. exists m. split; [|done].
      by apply list_elem_of_singleton.
    + apply (elem_of_lookup_imap_2 pair _ (pp, g) i).
      by apply lookup_zip_Some.
Qed.

Lemma init_modality_eq i pp m self :
  init_modality data i pp m self =
    match pp m data with
    | Err e => Err e
    | Ok f =>
        let self := setattr self (attr_name m i) f in
        Ok (match sample_count f with
            | None => self
            | Some n => lengths_append self n
            end)
    end.
Proof.
  unfold init_modality. destruct (pp m data) as [[|[k column] f]|e]; done.
Qed.

(** What the loops have done when they complete. *)
Lemma for_each_init_Ok l self self' :
  for_each l (λ '(i, pp, m), init_modality data i pp m) self = Ok self' →
  (∀ i pp m, (i, pp, m) ∈ l → ∃ f, pp m data = Ok f)
  ∧ processors self' = processors self
  ∧ is_training self' = is_training self
  ∧ _consecutive_errors self' = _consecutive_errors self
  ∧ lengths self' = lengths self ++ recorded_lengths data l
  ∧ attrs self' = recorded_attrs data l (attrs self).
Proof.
  revert self. induction l as [|[[i pp] m] l IH]; intros self.
  - intros [= <-]. unfold recorded_lengths, recorded_attrs. simpl.
    rewrite (right_id_L [] (++)).
    split; [|done]. by intros ??? ?%elem_of_nil.
  - cbn [for_each]. rewrite init_modality_eq.
    unfold recorded_lengths, recorded_attrs. cbn [omap list_omap foldl].
    destruct (pp m data) as [f|e] eqn:Hf; [|done]. simpl.
    intros (Hall & -> & -> & -> & -> & ->)%IH. split.
    { intros i' pp' m' [[= -> -> ->]|?]%elem_of_cons; eauto. }
    destruct (sample_count f); simpl; [|done].
    by rewrite <-(assoc_L (++)).
Qed.

(** The loops complete when every transformation returns. *)
Lemma for_each_init_complete l self :
  (∀ i pp m, (i, pp, m) ∈ l → ∃ f, pp m data = Ok f) →
  ∃ self',
    for_each l (λ '(i, pp, m), init_modality data i pp m) self = Ok self'.
Proof.
  revert self. induction l as [|[[i pp] m] l IH]; intros self Hall;
    [by eexists|].
  cbn [for_each]. rewrite init_modality_eq.
  destruct (Hall i pp m) as [f ->]; [left|]. simpl. apply IH.
  intros i' pp' m' ?. apply (Hall i' pp' m'). by right.
Qed.

(** The attribute of a modality holds what its preprocessor returned,
    provided no other entry of the list writes something else under that
    name. *)
Lemma recorded_attrs_lookup l a i pp m f :
  (i, pp, m) ∈ l ∨ a !! attr_name m i = Some f →
  pp m data = Ok f →
  (∀ pp', (i, pp', m) ∈ l → pp' = pp) →
  recorded_attrs data l a !! attr_name m i = Some f.
Proof.
  intros Hin Hf Hfun. revert a Hin.
  induction l as [|[[i' pp'] m'] l IH]; intros a Hin.
  - by destruct Hin as [?%elem_of_nil|?].
  - unfold recorded_attrs. cbn [foldl]. apply IH.
    { intros pp'' ?. apply Hfun. by right. }
    destruct Hin as [[[= <- <- <-]|?]%elem_of_cons|Ha]; [|by left|].
    + right. rewrite Hf. apply lookup_insert_eq.
    + right. destruct (pp' m' data) as [f'|] eqn:Hf'; [|done].
      destruct (decide (attr_name m' i' = attr_name m i)) as [Heq|Hne].
      * apply attr_name_inj in Heq as [-> ->].
        rewrite (Hfun pp') in Hf' by left.
        rewrite lookup_insert_eq. congruence.
      * by rewrite lookup_insert_ne.
Qed.

(** Nothing else is recorded. *)
Lemma recorded_attrs_lookup_inv l a name f :
  recorded_attrs data l a !! name = Some f →
  a !! name = Some f
  ∨ ∃ i pp m, (i, pp, m) ∈ l ∧ name = attr_name m i ∧ pp m data = Ok f.
Proof.
  revert a. induction l as [|[[i pp] m] l IH]; intros a; [by left|].
  unfold recorded_attrs. cbn [foldl]. intros [Ha|Hl]%IH.
  - destruct (pp m data) as [f'|] eqn:Hf'; [|by left].
    destruct (decide (attr_name m i = name)) as [<-|Hne].
    + rewrite lookup_insert_eq in Ha. injection Ha as ->.
      right. exists i, pp, m. split; [left|done].
    + rewrite lookup_insert_ne in Ha by done. by left.
  - right. destruct Hl as (i' & pp' & m' & ? & ? & ?).
    exists i', pp', m'. split; [by right|done].
Qed.

(** [len(set(l)) == 1]: [l] is not empty and its elements are all the
    first one. *)
Lemma one_length_iff (l : list Z) :
  size (list_to_set (C:=gset Z) l) = 1%nat ↔
  ∃ n, head l = Some n ∧ Forall (λ x, x = n) l.
Proof.
  split.
  - intros Hsize. destruct l as [|n l].
    { by rewrite list_to_set_nil, size_empty in Hsize. }
    exists n. split; [done|]. apply Forall_forall. intros x Hx.
    apply (size_singleton_inv _ _ _ Hsize); apply elem_of_list_to_set;
      [done|left].
  - intros (n & Hhd & Hall). destruct l as [|n' l]; [done|].
    injection Hhd as ->.
    assert (list_to_set (C:=gset Z) (n :: l) = {[n]}) as ->;
      [|apply size_singleton].
    apply set_eq. intros x. rewrite elem_of_list_to_set, elem_of_singleton.
    split; [|intros ->; left].
    intros Hx. by apply (proj1 (Forall_forall _ _) Hall).
Qed.

(** What a completed construction has established. *)
Lemma init_Ok_inv pre procs tr self :
  __init__ data pre procs tr = Ok self →
  (∀ i pp m, (i, pp, m) ∈ zipped_modalities pre procs →
             ∃ f, pp m data = Ok f)
  ∧ processors self = procs
  ∧ is_training self = tr
  ∧ _consecutive_errors self = 0
  ∧ lengths self = recorded_lengths data (zipped_modalities pre procs)
  ∧ attrs self = recorded_attrs data (zipped_modalities pre procs) ∅
  ∧ size (list_to_set (C:=gset Z) (lengths self)) = 1%nat.
Proof.
  unfold __init__. intros (self0 & Hloops & Hassert)%result_bind_Ok.
  case_bool_decide as Hsize; [|done]. injection Hassert as ->.
  rewrite init_loops_zipped in Hloops.
  apply for_each_init_Ok in Hloops as (? & ? & ? & ? & ? & ?). done.
Qed.

Lemma init_complete pre procs tr :
  (∀ i pp m, (i, pp, m) ∈ zipped_modalities pre procs →
             ∃ f, pp m data = Ok f) →
  __init__ data pre procs tr =
    if bool_decide
         (size (list_to_set (C:=gset Z)
                  (recorded_lengths data (zipped_modalities pre procs)))
          = 1%nat)
    then Ok (mkBaseDataset procs tr 0
               (recorded_lengths data (zipped_modalities pre procs))
               (recorded_attrs data (zipped_modalities pre procs) ∅))
    else Err AssertionError.
Proof.
  intros Hall. unfold __init__. rewrite init_loops_zipped.
  destruct (for_each_init_complete _ (mkBaseDataset procs tr 0 [] ∅) Hall)
    as [self Hself].
  rewrite Hself. simpl.
  apply for_each_init_Ok in Hself as (_ & ? & ? & ? & Hlen & ?).
  simpl in *. rewrite Hlen. destruct self; simpl in *; by subst.
Qed.

(** After construction, the attribute [<modality>_<i>] holds what the
    [i]-th preprocessor returned for that modality. *)
Lemma init_attrs_lookup pre procs tr self i pp g m :
  __init__ data pre procs tr = Ok self →
  pre !! i = Some pp → procs !! i = Some g → m ∈ g.*1 →
  ∃ f, pp m data = Ok f ∧ attrs self !! attr_name m i = Some f.
Proof.
  intros (Hall & _ & _ & _ & _ & -> & _)%init_Ok_inv Hpp Hg Hm.
  assert ((i, pp, m) ∈ zipped_modalities pre procs) as Hin.
  { apply elem_of_zipped_modalities. eauto. }
  destruct (Hall _ _ _ Hin) as [f Hf]. exists f. split; [done|].
  apply (recorded_attrs_lookup _ _ _ pp); [by left|done|].
  intros pp' (g' & Hpp' & _)%elem_of_zipped_modalities. congruence.
Qed.

Lemma init_attrs_lookup_inv pre procs tr self name f :
  __init__ data pre procs tr = Ok self →
  attrs self !! name = Some f →
  ∃ i pp g m, pre !! i = Some pp ∧ procs !! i = Some g ∧ m ∈ g.*1
            ∧ name = attr_name m i ∧ pp m data = Ok f.
Proof.
  intros (_ & _ & _ & _ & _ & -> & _)%init_Ok_inv
    [?|(i & pp & m & Hin & -> & Hf)]%recorded_attrs_lookup_inv; [done|].
  apply elem_of_zipped_modalities in Hin as (g & ? & ? & ?).
  by exists i, pp, g, m.
Qed.
(** The recorded lengths are the sample counts of the non-empty collections
    the modalities produce. *)
Lemma elem_of_recorded_lengths pre procs (x : Z) :
  x ∈ recorded_lengths data (zipped_modalities pre procs) ↔
  ∃ f, produced data pre procs f ∧ sample_count f = Some x.
Proof.
  unfold recorded_lengths. rewrite list_elem_of_omap. split.
  - intros ([[i pp] m] & Hin & Hx).
    apply elem_of_zipped_modalities in Hin as (g & ? & ? & ?).
    destruct (pp m data) as [f|] eqn:Hf; [|done].
    exists f. split; [|done]. by exists i, pp, g, m.
  - intros (f & (i & pp & g & m & ? & ? & ? & Hf) & Hx).
    exists (i, pp, m). split; [apply elem_of_zipped_modalities; eauto|].
    by rewrite Hf.
Qed.

Lemma sample_count_is_Some (f : @features value) :
  f ≠ [] → ∃ x, sample_count f = Some x ∧ 0 ≤ x.
Proof.
  destruct f as [|[k column] f]; [done|]. intros _. eexists.
  split; [done|]. lia.
Qed.

(** The assertion of [__init__] in the words of the description. *)
Lemma recorded_one_length_iff pre procs :
  size (list_to_set (C:=gset Z)
          (recorded_lengths data (zipped_modalities pre procs))) = 1%nat
  ↔ one_sample_count data pre procs.
Proof.
  rewrite one_length_iff. split.
  - intros (n & Hhd & Hall). rewrite Forall_forall in Hall.
    assert (n ∈ recorded_lengths data (zipped_modalities pre procs)) as Hn.
    { destruct (recorded_lengths _ _); [done|].
      injection Hhd as ->. left. }
    split.
    + apply elem_of_recorded_lengths in Hn as (f & ? & Hf).
      exists f. split; [done|]. by intros ->.
    + exists n. intros f Hprod [x [Hx _]]%sample_count_is_Some.
      rewrite Hx. f_equal. apply Hall, elem_of_recorded_lengths. eauto.
  - intros [(f & Hprod & [x [Hx _]]%sample_count_is_Some) (n & Hsame)].
    assert (∀ y, y ∈ recorded_lengths data (zipped_modalities pre procs) →
                 y = n) as Hall.
    { intros y (f' & Hprod' & Hy)%elem_of_recorded_lengths.
      rewrite (Hsame f') in Hy; [congruence|done|]. by intros ->. }
    assert (x ∈ recorded_lengths data (zipped_modalities pre procs)) as Hin.
    { apply elem_of_recorded_lengths. eauto. }
    exists n. split; [|by apply Forall_forall].
    destruct (recorded_lengths _ _) as [|y l]; [by apply elem_of_nil in Hin|].
    simpl. f_equal. apply Hall. left.
Qed.
End init.

(** ** Registered processors *)

Section registered.
Context {value tensor : Type}.
Implicit Types (self : @BaseDataset value tensor) (idx : Z).
Implicit Types (procs : list (@processors_group value tensor)).

Lemma elem_of_registered procs i m (p : @processor value tensor) :
  (i, m, p) ∈ registered procs ↔
  ∃ g ps, procs !! i = Some g ∧ (m, ps) ∈ g ∧ p ∈ ps.
Proof.
  unfold registered, enumerate. rewrite list_elem_of_bind. split.
  - intros ([i' g] & Hin & Hg).
    apply list_elem_of_bind in Hin as ([m' ps] & Hin & Hm).
    apply list_elem_of_bind in Hin as (p' & Hin & Hp).
    apply list_elem_of_singleton in Hin as [= -> -> ->].
    apply elem_of_lookup_imap in Hg as (j & g' & [= -> ->] & Hg). eauto.
  - intros (g & ps & Hg & Hm & Hp). exists (i, g). split.
    + apply list_elem_of_bind. exists (m, ps). split; [|done].
      apply list_elem_of_bind. exists p. split; [|done].
      by apply list_elem_of_singleton.
    + by apply (elem_of_lookup_imap_2 pair _ g i).
Qed.

(** When no processor of [l] raises on the features stored for it, the
    outputs along [l] are dictionaries. *)
Lemma outputs_along_Ok self idx (l : list (nat * string * processor)) :
  (∀ i m p, (i, m, p) ∈ l → truthy (stored self i m) = true →
            ∃ d, p (stored self i m) idx (is_training self) = Ok d) →
  ∃ ds, outputs_along self idx l = Ok <$> ds.
Proof.
  induction l as [|[[i m] p] l IH]; intros Hall; [by exists []|].
  destruct IH as [ds Hds].
  { intros i' m' p' ?. apply Hall. by right. }
  rewrite outputs_along_cons, Hds.
  destruct (truthy (stored self i m)) eqn:Htruthy; [|by exists ds].
  destruct (Hall i m p) as [d Hd]; [left|done|].
  exists (d :: ds). by rewrite Hd.
Qed.
End registered.

(** * The properties the description states *)

Section statements.
Context {DataFrame value tensor : Type}.
Variable GET_ITEM_ERROR_RETRY : Z.
Implicit Types (self : @BaseDataset value tensor) (idx n : Z).
Local Abbreviation getitem := (__getitem__ GET_ITEM_ERROR_RETRY).

(** C1. Bounded retry.  Let preparing sample [idx] raise an exception [e].
    If one more failure reaches [GET_ITEM_ERROR_RETRY], [__getitem__]
    re-raises [e].  Otherwise, on a dataset whose length is not zero, the
    error is tolerated: the call goes on as the call at the next index,
    with the counter one higher; and when the [k] preparations that follow
    fail as well and the last of them brings the counter to the bound, the
    exception of that last preparation is raised, after [k + 1]
    preparations in all. *)
Theorem C1_bounded_retry self idx t e :
  prepare self idx = (t, Err e) → is_Exception e = true →
  (GET_ITEM_ERROR_RETRY ≤ _consecutive_errors self + 1 →
     getitem self idx =
       Some (set_consecutive_errors self (_consecutive_errors self + 1),
             (t, Err e)))
  ∧ ∀ n, __len__ self = Ok n → n ≠ 0 →
      _consecutive_errors self + 1 < GET_ITEM_ERROR_RETRY →
      getitem self idx =
        ('(self', (t', r)) ←
           getitem (set_consecutive_errors self
                      (_consecutive_errors self + 1))
             ((idx + 1) `mod` n);
         Some (self', (t ++ t', r)))
      ∧ ∀ (k : nat) t' e',
          (∀ j : nat, (j ≤ k)%nat → fails self (retry_index n idx j) = true) →
          prepare self (retry_index n idx k) = (t', Err e') →
          _consecutive_errors self + Z.of_nat k + 1 = GET_ITEM_ERROR_RETRY →
          getitem self idx =
            Some (set_consecutive_errors self GET_ITEM_ERROR_RETRY,
                  (attempted_calls self n idx k ++ t', Err e')).
Proof.
  intros Hp He. split; [by apply getitem_reraises|].
  intros n Hlen Hn Hlt. split; [by apply getitem_retries with e|].
  intros k t' e' Hfail Hlast Hk.
  rewrite (getitem_chain _ k self idx n) by (done || auto with lia || lia).
  pose proof (Hfail k ltac:(lia)) as He'. unfold fails in He'.
  rewrite Hlast in He'. simpl in He'.
  rewrite (getitem_reraises _ _ _ t' e'); [|done..|simpl; lia].
  simpl. do 3 f_equal. lia.
Qed.
(** C2. Substitution.  Let preparing sample [idx] raise an exception while
    one more failure stays below [GET_ITEM_ERROR_RETRY], on a dataset whose
    length [n] is not zero.  Then [__getitem__(idx)] returns what
    [__getitem__((idx + 1) % n)] returns; and when [(idx + k) % n] is the
    first following index whose preparation succeeds, with [k] failures
    still below the bound, the call returns the dictionary prepared for
    that index and the counter is back to 0. *)
Theorem C2_substitution self idx n t e :
  __len__ self = Ok n → n ≠ 0 →
  prepare self idx = (t, Err e) → is_Exception e = true →
  _consecutive_errors self + 1 < GET_ITEM_ERROR_RETRY →
  getitem self idx =
    ('(self', (t', r)) ←
       getitem (set_consecutive_errors self (_consecutive_errors self + 1))
         ((idx + 1) `mod` n);
     Some (self', (t ++ t', r)))
  ∧ ∀ (k : nat) t' ret,
      (1 ≤ k)%nat →
      _consecutive_errors self + Z.of_nat k < GET_ITEM_ERROR_RETRY →
      (∀ j : nat, (j < k)%nat → fails self (retry_index n idx j) = true) →
      prepare self ((idx + Z.of_nat k) `mod` n) = (t', Ok ret) →
      getitem self idx =
        Some (set_consecutive_errors self 0,
              (attempted_calls self n idx k ++ t', Ok ret)).
Proof.
  intros Hlen Hn Hp He Hlt. split; [by apply getitem_retries with e|].
  intros [|k] t' ret Hk Hbound Hfail Hok; [lia|].
  rewrite (getitem_chain _ (S k) self idx n) by done.
  cbn [retry_index].
  by rewrite (getitem_returns _ _ _ t' ret).
Qed.
(** C3. Feature dictionaries.  On a dataset constructed with a preprocessor
    for every processor group, for every index [idx] at which no processor
    raises on the features stored for its modality, [__getitem__(idx)]
    returns a dictionary: the merge, from left to right, of the dictionaries
    the processors return for [idx]. *)
Theorem C3_feature_dictionary (data : DataFrame) pre procs tr self idx :
  __init__ data pre procs tr = Ok self →
  (length procs ≤ length pre)%nat →
  (∀ i m p, (i, m, p) ∈ registered procs →
            truthy (stored self i m) = true →
            ∃ d, p (stored self i m) idx tr = Ok d) →
  ∃ ds, delegated self idx = Ok <$> ds
      ∧ getitem self idx =
          Some (set_consecutive_errors self 0,
                (delegated_calls self idx, Ok (merged ds))).
Proof.
  intros Hinit Hlen Hok.
  pose proof (init_Ok_inv _ _ _ _ _ Hinit) as (_ & Hprocs & Htr & _).
  destruct (outputs_along_Ok self idx (registered (processors self)))
    as [ds Hds].
  { rewrite Hprocs, Htr. exact Hok. }
  exists ds. split; [done|]. apply getitem_returns.
  rewrite prepare_registered. apply for_each_prepare_complete; [|done].
  intros i m p (g & ps & Hg & Hm & _)%elem_of_registered.
  rewrite Hprocs in Hg.
  destruct (lookup_lt_is_Some_2 pre i) as [pp Hpp].
  { apply lookup_lt_Some in Hg. lia. }
  destruct (init_attrs_lookup data pre procs tr self i pp g m)
    as (f & _ & ->); [done..| |done].
  apply list_elem_of_fmap. by exists (m, ps).
Qed.
(** C4. Complete delegation.  Whenever [__getitem__(idx)] returns, the
    dictionary it returns is exactly the merge, from left to right, of what
    the registered processors return for one index, over the modalities
    whose stored features are not empty; the class adds, removes or changes
    no entry.  When preparing [idx] itself did not fail, that index is
    [idx], and the calls made are exactly those calls, each once and in
    order. *)
Theorem C4_complete_delegation self idx self' t ret :
  getitem self idx = Some (self', (t, Ok ret)) →
  ∃ idx' ds,
    delegated self idx' = Ok <$> ds
    ∧ ret = merged ds
    ∧ (fails self idx = false → idx' = idx ∧ t = delegated_calls self idx).
Proof.
  intros (_ & idx' & t' & Hp & Hfirst)%getitem_fuel_Ok_inv.
  rewrite prepare_registered in Hp.
  apply for_each_prepare_Ok in Hp as (ds & Hds & -> & ->).
  exists idx', ds. split; [done|]. split; [done|].
  intros [-> ->]%Hfirst. done.
Qed.


(** C6. Preprocessor delegation.  After a successful construction, for
    every position [i] of the zipped lists and every modality [m] named in
    the [i]-th processor group, the attribute [<m>_<i>] holds what the
    [i]-th preprocessor's [transform_<m>] returned on the data frame; and
    the attributes hold nothing else. *)
Theorem C6_preprocessor_delegation (data : DataFrame) pre procs tr self :
  __init__ data pre procs tr = Ok self →
  (∀ i pp g m,
     pre !! i = Some pp → procs !! i = Some g → m ∈ g.*1 →
     ∃ f, pp m data = Ok f ∧ attrs self !! attr_name m i = Some f)
  ∧ (∀ name f,
       attrs self !! name = Some f →
       ∃ i pp g m, pre !! i = Some pp ∧ procs !! i = Some g ∧ m ∈ g.*1
                 ∧ name = attr_name m i ∧ pp m data = Ok f).
Proof.
  intros Hinit. split.
  - intros i pp g m. by apply init_attrs_lookup with tr.
  - intros name f. by apply init_attrs_lookup_inv with tr.
Qed.

(** C7. One pipeline per modality.  Every call [__getitem__] makes is the
    call of a processor registered under a modality [m] of a group [i], on
    the attribute [<m>_<i>], which holds what the [i]-th preprocessor
    returned for [m]; with the training flag, and with the requested index
    or one the retry computed modulo the length. *)
Theorem C7_own_modality (data : DataFrame) pre procs tr self idx self' t r :
  __init__ data pre procs tr = Ok self →
  getitem self idx = Some (self', (t, r)) →
  Forall (λ c,
    ∃ pp g ps,
      pre !! call_group c = Some pp
      ∧ procs !! call_group c = Some g
      ∧ (call_modality c, ps) ∈ g
      ∧ call_processor c ∈ ps
      ∧ attrs self !! attr_name (call_modality c) (call_group c)
          = Some (call_features c)
      ∧ pp (call_modality c) data = Ok (call_features c)
      ∧ call_is_training c = tr
      ∧ (call_idx c = idx
         ∨ ∃ n x, __len__ self = Ok n ∧ n ≠ 0 ∧ call_idx c = x `mod` n)) t.
Proof.
  intros Hinit Hget.
  pose proof (init_Ok_inv _ _ _ _ _ Hinit) as (_ & Hprocs & Htr & _).
  apply getitem_fuel_calls in Hget. eapply Forall_impl; [exact Hget|].
  intros c [(Hreg & Hattr & _ & Hflag) Hidx].
  apply elem_of_registered in Hreg as (g & ps & Hg & Hm & Hp).
  rewrite Hprocs in Hg.
  destruct (init_attrs_lookup_inv _ _ _ _ _ _ _ Hinit Hattr)
    as (i & pp & g' & m & Hpp & _ & _ & [Hm' Hi']%attr_name_inj & Hf).
  rewrite <-Hi' in Hpp. rewrite <-Hm' in Hf.
  exists pp, g, ps. rewrite Hflag, Htr. done.
Qed.
(** C8. The length assertion.  [__init__] completes only if at least one
    modality produces a non-empty feature collection and the non-empty
    collections all have the same sample count, and [__len__] then does not
    fail.  When every transformation returns, that condition is also
    enough for [__init__] to complete, and without it [__init__] fails with
    [AssertionError]. *)
Theorem C8_length_assertion (data : DataFrame) pre procs tr :
  (∀ self, __init__ data pre procs tr = Ok self →
     one_sample_count data pre procs ∧ ∃ n, __len__ self = Ok n)
  ∧ ((∀ i pp g m,
        pre !! i = Some pp → procs !! i = Some g → m ∈ g.*1 →
        ∃ f, pp m data = Ok f) →
     (one_sample_count data pre procs →
        ∃ self, __init__ data pre procs tr = Ok self)
     ∧ (¬ one_sample_count data pre procs →
        __init__ data pre procs tr = Err AssertionError)).
Proof.
  split.
  - intros self Hinit.
    pose proof (init_Ok_inv _ _ _ _ _ Hinit) as (_ & _ & _ & _ & Hlen & _ & Hone).
    split.
    + rewrite Hlen in Hone. by apply recorded_one_length_iff.
    + apply one_length_iff in Hone as (n & Hhd & _). exists n.
      unfold __len__. by destruct (lengths self); simplify_eq/=.
  - intros Hall. rewrite init_complete.
    + split.
      * intros Hone%recorded_one_length_iff.
        rewrite bool_decide_eq_true_2 by done. by eexists.
      * intros Hone. rewrite bool_decide_eq_false_2; [done|].
        by rewrite recorded_one_length_iff.
    + intros i pp m (g & ? & ? & ?)%elem_of_zipped_modalities.
      by apply (Hall i pp g m).
Qed.

(** C9. Consecutive errors.  The counter is 0 after construction.  On a
    dataset of non-zero length, from whatever value [c] the counter has:
    a call that ends by raising leaves the counter at [c] plus the number
    of preparations that failed with an [Exception] (the [k] that were
    retried, and the last one when it is the one re-raised at the bound);
    every call that returns leaves the counter at 0, whatever it was and
    however many preparations failed on the way; so of two calls one after
    the other, the first with [a] failures and then a sample that can be
    prepared, the second with [b], with [c + a] and [b] below
    [GET_ITEM_ERROR_RETRY] (possibly [GET_ITEM_ERROR_RETRY] failures in all,
    or more), both return and both leave the counter at 0. *)
Theorem C9_consecutive_errors self n :
  __len__ self = Ok n → n ≠ 0 →
  (∀ (data : DataFrame) pre procs tr self0,
     __init__ data pre procs tr = Ok self0 → _consecutive_errors self0 = 0)
  ∧ (∀ (k : nat) idx t e,
       (∀ j : nat, (j < k)%nat → fails self (retry_index n idx j) = true) →
       _consecutive_errors self + Z.of_nat k < GET_ITEM_ERROR_RETRY →
       prepare self (retry_index n idx k) = (t, Err e) →
       (is_Exception e = true →
        GET_ITEM_ERROR_RETRY ≤ _consecutive_errors self + Z.of_nat k + 1) →
       ∃ self',
         getitem self idx =
           Some (self', (attempted_calls self n idx k ++ t, Err e))
         ∧ _consecutive_errors self' =
             _consecutive_errors self + Z.of_nat k
             + (if is_Exception e then 1 else 0))
  ∧ (∀ idx self' t ret,
       getitem self idx = Some (self', (t, Ok ret)) →
       _consecutive_errors self' = 0)
  ∧ (∀ idx1 idx2 (a b : nat) t1 ret1 t2 ret2,
       _consecutive_errors self + Z.of_nat a < GET_ITEM_ERROR_RETRY →
       Z.of_nat b < GET_ITEM_ERROR_RETRY →
       (∀ j : nat, (j < a)%nat → fails self (retry_index n idx1 j) = true) →
       prepare self (retry_index n idx1 a) = (t1, Ok ret1) →
       (∀ j : nat, (j < b)%nat → fails self (retry_index n idx2 j) = true) →
       prepare self (retry_index n idx2 b) = (t2, Ok ret2) →
       ∃ self1 self2,
         getitem self idx1 =
           Some (self1, (attempted_calls self n idx1 a ++ t1, Ok ret1))
         ∧ _consecutive_errors self1 = 0
         ∧ getitem self1 idx2 =
             Some (self2, (attempted_calls self n idx2 b ++ t2, Ok ret2))
         ∧ _consecutive_errors self2 = 0).
Proof.
  intros Hlen Hn. split; [|split; [|split]].
  - intros data pre procs tr self0 Hinit.
    by pose proof (init_Ok_inv _ _ _ _ _ Hinit) as (_ & _ & _ & H0 & _).
  - intros k idx t e Hfail Hlt Hp Hbound.
    rewrite (getitem_chain _ k self idx n) by done.
    destruct (is_Exception e) eqn:He.
    + rewrite (getitem_reraises _ _ _ t e); [|done|done|simpl; lia].
      eexists. split; [done|]. simpl. lia.
    + rewrite getitem_eq, prepare_set_consecutive_errors, Hp, He.
      eexists. split; [done|]. simpl. lia.
  - intros idx self' t ret Hget.
    by apply getitem_fuel_Ok_inv in Hget as [? _].
  - intros idx1 idx2 a b t1 ret1 t2 ret2 Ha Hb Hfail1 Hok1 Hfail2 Hok2.
    exists (set_consecutive_errors self 0), (set_consecutive_errors self 0).
    split; [|split; [done|split; [|done]]].
    + rewrite (getitem_chain _ a self idx1 n) by done.
      by rewrite (getitem_returns _ _ _ t1 ret1).
    + rewrite (getitem_chain _ b (set_consecutive_errors self 0) idx2 n);
        [|done|done|done|simpl; lia].
      by rewrite (getitem_returns _ _ _ t2 ret2).
Qed.

(** C10. Frame.  Every call of [__getitem__] returns or raises, and the
    object it leaves has the same [processors], [is_training], [lengths] and
    attributes [<modality>_<i>] as before: only [_consecutive_errors] may
    have changed. *)
Theorem C10_frame self idx :
  ∃ self' t r,
    getitem self idx = Some (self', (t, r))
    ∧ processors self' = processors self
    ∧ is_training self' = is_training self
    ∧ lengths self' = lengths self
    ∧ attrs self' = attrs self.
Proof.
  destruct (getitem_total GET_ITEM_ERROR_RETRY self idx)
    as [[self' [t r]] Hget].
  exists self', t, r. split; [done|].
  apply getitem_fuel_frame in Hget. by rewrite Hget.
Qed.
End statements.

(** * The properties on the small datasets *)

(** With a bound of 1 the first failure is re-raised; with a bound of 3 two
    failures are tolerated and the third is re-raised, the counter then
    being 3. *)
Lemma C1_bounded_retry_witness :
  __getitem__ 1 Example.broken_dataset 0 =
    Some (set_consecutive_errors Example.broken_dataset 1,
          ((prepare Example.broken_dataset 0).1,
           Err (RaisedException "broken")))
  ∧ __getitem__ 3 Example.broken_dataset 0 =
      Some (set_consecutive_errors Example.broken_dataset 3,
            (attempted_calls Example.broken_dataset 3 0 2
               ++ (prepare Example.broken_dataset 2).1,
             Err (RaisedException "broken"))).
Proof.
  split.
  - apply (C1_bounded_retry 1 Example.broken_dataset 0 _ _ eq_refl eq_refl).
    simpl. lia.
  - refine (proj2 (proj2 (C1_bounded_retry 3 Example.broken_dataset 0 _ _
                            eq_refl eq_refl) 3 eq_refl _ _) 2%nat _ _ _ _ _).
    + lia.
    + simpl. lia.
    + intros j Hj.
      assert (j = 0 ∨ j = 1 ∨ j = 2)%nat as [-> | [-> | ->]] by lia; reflexivity.
    + reflexivity.
    + reflexivity.
Defined.

(** Sample 2, the last one, cannot be prepared: [__getitem__(2)] returns the
    dictionary of sample 0. *)
Lemma C2_substitution_witness :
  __getitem__ 50 Example.dataset 2 =
    Some (set_consecutive_errors Example.dataset 0,
          (attempted_calls Example.dataset 3 2 1
             ++ (prepare Example.dataset 0).1,
           Ok (<["label" := 0]> (<["text_token_ids" := 101]> ∅)))).
Proof.
  refine (proj2 (C2_substitution 50 Example.dataset 2 3 _ _
                   eq_refl _ eq_refl eq_refl _) 1%nat _ _ _ _ _ _).
  - lia.
  - simpl. lia.
  - lia.
  - simpl. lia.
  - intros j Hj. assert (j = 0)%nat as -> by lia. reflexivity.
  - reflexivity.
Defined.

(** The dataset of the example is the one its constructor builds, and
    [__getitem__(0)] returns the two entries of sample 0. *)
Lemma C3_feature_dictionary_witness :
  ∃ ds, delegated Example.dataset 0 = Ok <$> ds
      ∧ __getitem__ 50 Example.dataset 0 =
          Some (set_consecutive_errors Example.dataset 0,
                (delegated_calls Example.dataset 0, Ok (merged ds))).
Proof.
  apply (C3_feature_dictionary 50 tt [Example.preprocessor]
           Example.processors false Example.dataset 0).
  - reflexivity.
  - simpl. lia.
  - intros i m p Hin _.
    change (registered Example.processors)
      with [(0%nat, "text", Example.pick_but_last);
            (0%nat, "label", Example.pick)] in Hin.
    apply elem_of_cons in Hin as [[= -> -> ->]|Hin]; [by eexists|].
    apply list_elem_of_singleton in Hin as [= -> -> ->]. by eexists.
Defined.

(** C3, as first stated, fails.  With two processor groups and one
    preprocessor the construction succeeds, 0 is a valid index and no
    processor ever raises, yet [__getitem__(0)] raises [AttributeError]
    after 50 preparations: [__init__] stops at the shorter of the two
    lists, so the attribute [label_1] was never set, while [__getitem__]
    goes through every processor group. *)
Lemma C3_counterexample :
  __init__ tt [Example.preprocessor] Example.two_groups false
    = Ok Example.short_dataset
  ∧ __len__ Example.short_dataset = Ok 3
  ∧ (∀ i m p, (i, m, p) ∈ registered Example.two_groups →
       ∀ f idx is_training, ∃ d, p f idx is_training = Ok d)
  ∧ ∃ t, __getitem__ 50 Example.short_dataset 0 =
           Some (set_consecutive_errors Example.short_dataset 50,
                 (t, Err (AttributeError "label_1"))).
Proof.
  split; [reflexivity|]. split; [reflexivity|]. split.
  - intros i m p Hin f idx tr.
    change (registered Example.two_groups)
      with [(0%nat, "text", Example.column_sizes);
            (1%nat, "label", Example.column_sizes)] in Hin.
    apply elem_of_cons in Hin as [[= -> -> ->]|Hin]; [by eexists|].
    apply list_elem_of_singleton in Hin as [= -> -> ->]. by eexists.
  - eexists. vm_compute. reflexivity.
Qed.

(** [__getitem__(0)] returns the merge of what the two processors return
    for sample 0. *)
Lemma C4_complete_delegation_witness :
  ∃ idx' ds,
    delegated Example.dataset idx' = Ok <$> ds
    ∧ <["label" := 0]> (<["text_token_ids" := 101]> ∅) = merged ds
    ∧ (fails Example.dataset 0 = false →
       idx' = 0
       ∧ (prepare Example.dataset 0).1 = delegated_calls Example.dataset 0).
Proof.
  apply (C4_complete_delegation 50 Example.dataset 0
           (set_consecutive_errors Example.dataset 0)
           (prepare Example.dataset 0).1
           (<["label" := 0]> (<["text_token_ids" := 101]> ∅))).
  vm_compute. reflexivity.
Defined.


(** The attributes of the example are [text_0] and [label_0], with what the
    preprocessor returned. *)
Lemma C6_preprocessor_delegation_witness :
  (∀ i pp g m,
     [Example.preprocessor] !! i = Some pp →
     Example.processors !! i = Some g → m ∈ g.*1 →
     ∃ f, pp m tt = Ok f ∧ attrs Example.dataset !! attr_name m i = Some f)
  ∧ (∀ name f,
       attrs Example.dataset !! name = Some f →
       ∃ i pp g m, [Example.preprocessor] !! i = Some pp
                 ∧ Example.processors !! i = Some g ∧ m ∈ g.*1
                 ∧ name = attr_name m i ∧ pp m tt = Ok f).
Proof.
  apply (C6_preprocessor_delegation tt [Example.preprocessor]
           Example.processors false Example.dataset).
  vm_compute. reflexivity.
Defined.

(** The calls of [__getitem__(2)], which prepares sample 2 and then
    sample 0. *)
Lemma C7_own_modality_witness :
  Forall (λ c,
    ∃ pp g ps,
      [Example.preprocessor] !! call_group c = Some pp
      ∧ Example.processors !! call_group c = Some g
      ∧ (call_modality c, ps) ∈ g
      ∧ call_processor c ∈ ps
      ∧ attrs Example.dataset !! attr_name (call_modality c) (call_group c)
          = Some (call_features c)
      ∧ pp (call_modality c) tt = Ok (call_features c)
      ∧ call_is_training c = false
      ∧ (call_idx c = 2
         ∨ ∃ n x, __len__ Example.dataset = Ok n ∧ n ≠ 0
                  ∧ call_idx c = x `mod` n))
    (attempted_calls Example.dataset 3 2 1 ++ (prepare Example.dataset 0).1).
Proof.
  apply (C7_own_modality 50 tt [Example.preprocessor] Example.processors false
           Example.dataset 2 (set_consecutive_errors Example.dataset 0) _
           (Ok (<["label" := 0]> (<["text_token_ids" := 101]> ∅)))).
  - vm_compute. reflexivity.
  - vm_compute. reflexivity.
Defined.

(** The example passes the assertion; with a label column one sample short
    the construction fails with [AssertionError]. *)
Lemma C8_length_assertion_witness :
  (one_sample_count tt [Example.preprocessor] Example.processors
   ∧ ∃ n, __len__ Example.dataset = Ok n)
  ∧ __init__ tt [Example.ragged_preprocessor] Example.processors false
      = Err AssertionError.
Proof.
  split.
  - apply (proj1 (C8_length_assertion tt [Example.preprocessor]
                    Example.processors false) Example.dataset).
    vm_compute. reflexivity.
  - apply (proj2 (C8_length_assertion tt [Example.ragged_preprocessor]
                    Example.processors false)).
    + intros i pp g m Hpp Hg Hm. destruct i as [|i]; [|done].
      injection Hpp as <-. injection Hg as <-.
      change (m ∈ ["text"; "label"]) in Hm.
      apply elem_of_cons in Hm as [->|Hm]; [by eexists|].
      apply list_elem_of_singleton in Hm as ->. by eexists.
    + intros [_ [n Hn]].
      assert (produced tt [Example.ragged_preprocessor] Example.processors
                Example.text) as Htext.
      { exists 0%nat, Example.ragged_preprocessor,
          [("text", [Example.pick_but_last]); ("label", [Example.pick])],
          "text".
        split; [done|]. split; [done|]. split; [|done].
        change ("text" ∈ ["text"; "label"]). left. }
      assert (produced tt [Example.ragged_preprocessor] Example.processors
                [("label", [0; 1])]) as Hlabel.
      { exists 0%nat, Example.ragged_preprocessor,
          [("text", [Example.pick_but_last]); ("label", [Example.pick])],
          "label".
        split; [done|]. split; [done|]. split; [|done].
        change ("label" ∈ ["text"; "label"]). right. left. }
      apply Hn in Htext; [|done]. apply Hn in Hlabel; [|done].
      cbv in Htext, Hlabel.
      congruence.
Defined.

(** With a bound of 2 on the constructed example: a call that meets one
    failure, then another call that meets one failure; two failures in all,
    both calls return and the counter is 0 after each.  The same two calls
    starting with the counter at 3 and a bound of 5.  And with a bound of 3
    on the dataset whose samples all fail: three failed preparations, and
    the counter is 3 when the call raises. *)
Lemma C9_consecutive_errors_witness :
  (∃ self1 self2,
     __getitem__ 2 Example.dataset 2 =
       Some (self1,
             (attempted_calls Example.dataset 3 2 1
                ++ (prepare Example.dataset 0).1,
              Ok (<["label" := 0]> (<["text_token_ids" := 101]> ∅))))
     ∧ _consecutive_errors self1 = 0
     ∧ __getitem__ 2 self1 2 =
         Some (self2,
               (attempted_calls Example.dataset 3 2 1
                  ++ (prepare Example.dataset 0).1,
                Ok (<["label" := 0]> (<["text_token_ids" := 101]> ∅))))
     ∧ _consecutive_errors self2 = 0)
  ∧ (∃ self1 self2,
       __getitem__ 5 (set_consecutive_errors Example.dataset 3) 2 =
         Some (self1,
               (attempted_calls Example.dataset 3 2 1
                  ++ (prepare Example.dataset 0).1,
                Ok (<["label" := 0]> (<["text_token_ids" := 101]> ∅))))
       ∧ _consecutive_errors self1 = 0
       ∧ __getitem__ 5 self1 2 =
           Some (self2,
                 (attempted_calls Example.dataset 3 2 1
                    ++ (prepare Example.dataset 0).1,
                  Ok (<["label" := 0]> (<["text_token_ids" := 101]> ∅))))
       ∧ _consecutive_errors self2 = 0)
  ∧ ∃ self',
      __getitem__ 3 Example.broken_dataset 0 =
        Some (self',
              (attempted_calls Example.broken_dataset 3 0 2
                 ++ (prepare Example.broken_dataset 2).1,
               Err (RaisedException "broken")))
      ∧ _consecutive_errors self' = 0 + 2 + 1.
Proof.
  assert (∀ j : nat, (j < 1)%nat →
            fails Example.dataset (retry_index 3 2 j) = true) as Hfail.
  { intros j Hj. assert (j = 0)%nat as -> by lia. reflexivity. }
  split; [|split].
  - refine (proj2 (proj2 (proj2
      (C9_consecutive_errors (DataFrame:=unit) 2 Example.dataset 3
         eq_refl _))) 2 2 1%nat 1%nat _ _ _ _ _ _ Hfail eq_refl Hfail eq_refl);
      simpl; lia.
  - refine (proj2 (proj2 (proj2
      (C9_consecutive_errors (DataFrame:=unit) 5
         (set_consecutive_errors Example.dataset 3) 3 eq_refl _)))
      2 2 1%nat 1%nat _ _ _ _ _ _ Hfail eq_refl Hfail eq_refl);
      simpl; lia.
  - refine (proj1 (proj2
      (C9_consecutive_errors (DataFrame:=unit) 3 Example.broken_dataset 3
         eq_refl _)) 2%nat 0 _ (RaisedException "broken") _ _ eq_refl _).
    + lia.
    + intros j Hj.
      assert (j = 0 ∨ j = 1)%nat as [-> | ->] by lia; reflexivity.
    + simpl. lia.
    + intros _. simpl. lia.
Defined.

(** * Further properties of the class *)

Section further.
Context {DataFrame value tensor : Type}.
Variable GET_ITEM_ERROR_RETRY : Z.
Implicit Types (self : @BaseDataset value tensor) (idx n : Z).
Local Abbreviation getitem := (__getitem__ GET_ITEM_ERROR_RETRY).

(** X1. Attribute names.  [f"{per_modality}_{i}"] names one modality of
    one group only, whatever underscores and digits the modality's own name
    has, and is never the name of one of the attributes [__init__] sets
    directly; so no [setattr] of [__init__] overwrites the features of
    another modality or one of [processors], [is_training],
    [_consecutive_errors], [lengths]. *)
Theorem X1_attribute_names (m1 m2 : string) (i1 i2 : nat) :
  (attr_name m1 i1 = attr_name m2 i2 ↔ m1 = m2 ∧ i1 = i2)
  ∧ attr_name m1 i1 ∉
      ["processors"; "is_training"; "_consecutive_errors"; "lengths"].
Proof.
  split; [split|apply attr_name_not_fixed].
  - apply attr_name_inj.
  - by intros [-> ->].
Qed.

(** X2. What [except Exception] lets through.  When preparing [idx] raises
    an exception that is not an [Exception] ([KeyboardInterrupt],
    [SystemExit]), [__getitem__] raises it at once, whatever the counter and
    the bound are: nothing is retried and the counter is not touched. *)
Theorem X2_base_exception_propagates self idx t e :
  prepare self idx = (t, Err e) → is_Exception e = false →
  getitem self idx = Some (self, (t, Err e)).
Proof. intros Hp He. by rewrite getitem_eq, Hp, He. Qed.

(** X3. A dataset of length 0.  When preparing [idx] raises an [Exception]
    below the bound and [__len__] is 0, the modulo in the handler raises
    [ZeroDivisionError]: that exception, not the one of the preparation,
    reaches the caller, with the counter already incremented. *)
Theorem X3_empty_dataset self idx t e :
  __len__ self = Ok 0 →
  prepare self idx = (t, Err e) → is_Exception e = true →
  _consecutive_errors self + 1 < GET_ITEM_ERROR_RETRY →
  getitem self idx =
    Some (set_consecutive_errors self (_consecutive_errors self + 1),
          (t, Err ZeroDivisionError)).
Proof.
  intros Hlen Hp He Hlt. rewrite getitem_eq, Hp, He. cbn zeta.
  change (__len__ (set_consecutive_errors self _)) with (__len__ self).
  rewrite Hlen. cbn [_consecutive_errors set_consecutive_errors].
  by destruct (Z.ltb_spec (_consecutive_errors self + 1)
                 GET_ITEM_ERROR_RETRY); [|lia].
Qed.

Lemma getitem_fuel_raise_counter (fuel : nat) self idx n self' t e :
  __len__ self = Ok n → n ≠ 0 →
  getitem_fuel GET_ITEM_ERROR_RETRY fuel self idx = Some (self', (t, Err e)) →
  is_Exception e = true →
  _consecutive_errors self' =
    Z.max (_consecutive_errors self + 1) GET_ITEM_ERROR_RETRY.
Proof.
  intros Hlen Hn. revert self idx t Hlen.
  induction fuel as [|fuel IH]; intros self idx t Hlen; [done|]. simpl.
  destruct (prepare self idx) as [t0 [ret|e0]]; [done|].
  destruct (is_Exception e0) eqn:He0; [|intros [= <- <- <-]; congruence].
  destruct (Z.ltb_spec (_consecutive_errors self + 1) GET_ITEM_ERROR_RETRY).
  - change (__len__ (set_consecutive_errors self _)) with (__len__ self).
    rewrite Hlen. destruct (Z.eqb_spec n 0); [done|].
    destruct (getitem_fuel _ fuel _ _) as [[self'' [t' r']]|] eqn:Hrec;
      [|done].
    intros [= <- <- ->] He. apply IH in Hrec; [|done..].
    simpl in Hrec. lia.
  - intros [= <- <- <-] _. simpl. lia.
Qed.

(** X4. A used-up budget stays used up.  When a call on a dataset of
    non-zero length ends by raising an [Exception], the counter is left at
    the larger of [GET_ITEM_ERROR_RETRY] and the old counter plus one; it is
    not reset.  So the next call whose first preparation fails raises that
    failure at once, without trying another sample. *)
Theorem X4_budget_stays_used_up self idx n self' t e :
  __len__ self = Ok n → n ≠ 0 →
  getitem self idx = Some (self', (t, Err e)) → is_Exception e = true →
  _consecutive_errors self' =
    Z.max (_consecutive_errors self + 1) GET_ITEM_ERROR_RETRY
  ∧ ∀ idx2 t2 e2,
      prepare self idx2 = (t2, Err e2) → is_Exception e2 = true →
      getitem self' idx2 =
        Some (set_consecutive_errors self' (_consecutive_errors self' + 1),
              (t2, Err e2)).
Proof.
  intros Hlen Hn Hget He.
  pose proof (getitem_fuel_raise_counter _ _ _ _ _ _ _ Hlen Hn Hget He)
    as Hcount.
  split; [done|]. intros idx2 t2 e2 Hp2 He2.
  apply getitem_reraises; [|done|lia].
  apply getitem_fuel_frame in Hget. by rewrite Hget.
Qed.

(** X5. Surplus preprocessors.  [zip] stops at the shorter list: the
    preprocessors beyond the number of processor groups are never called,
    and the construction is the one without them. *)
Theorem X5_surplus_preprocessors_ignored (data : DataFrame)
    (pre : list (@MultiModalFeaturePreprocessor DataFrame value))
    (procs : list (@processors_group value tensor)) tr :
  __init__ data pre procs tr
    = __init__ data (take (length procs) pre) procs tr.
Proof.
  unfold __init__, init_loops.
  by rewrite (zip_with_take_l pair pre procs).
Qed.

(** X6. A transformation that raises.  When the transformations before
    one that raises all return, [__init__] raises that exception (an
    [AttributeError] for a preprocessor without the method), whatever
    lengths were recorded: the assertion is not reached and the
    transformations after it are not called. *)
Theorem X6_first_transformation_error (data : DataFrame) pre procs tr
    l1 i (pp : @MultiModalFeaturePreprocessor DataFrame value) m l2 e :
  zipped_modalities pre procs = l1 ++ (i, pp, m) :: l2 →
  (∀ i' pp' m', (i', pp', m') ∈ l1 → ∃ f, pp' m' data = Ok f) →
  pp m data = Err e →
  __init__ (tensor:=tensor) data pre procs tr = Err e.
Proof.
  intros Hz Hl1 He. unfold __init__. rewrite init_loops_zipped, Hz.
  rewrite (for_each_app (@result_bind_ret_l) (@result_bind_assoc)
             (@result_bind_ext)).
  destruct (for_each_init_complete data l1 (mkBaseDataset procs tr 0 [] ∅) Hl1)
    as [self ->].
  simpl. by rewrite init_modality_eq, He.
Qed.

(** In a merge the last dictionary that has a key decides its value. *)
Lemma merged_lookup (ds : list (gmap string tensor)) (k : string) (v : tensor) :
  merged ds !! k = Some v ↔
  ∃ (j : nat) d,
    ds !! j = Some d ∧ d !! k = Some v
    ∧ ∀ (j' : nat) d', (j < j')%nat → ds !! j' = Some d' → d' !! k = None.
Proof.
  unfold merged. induction ds as [|d ds IH] using rev_ind.
  { simpl. rewrite lookup_empty. split; [done|]. by intros (j & d & ? & _). }
  rewrite foldl_snoc, lookup_union_Some_raw. split.
  - intros [Hd|[Hd Hds]].
    + exists (length ds), d. rewrite list_lookup_middle by done.
      split; [done|]. split; [done|]. intros j' d' Hj' Hd'.
      apply lookup_lt_Some in Hd'. rewrite length_app in Hd'. simpl in Hd'.
      lia.
    + apply IH in Hds as (j & d0 & Hj & Hk & Hlast).
      exists j, d0. split; [by apply lookup_app_l_Some|]. split; [done|].
      intros j' d' Hj' Hd'.
      apply lookup_snoc_Some in Hd' as [[_ Hd']|[_ <-]]; [|done].
      by apply (Hlast j').
  - intros (j & d0 & Hj & Hk & Hlast).
    apply lookup_snoc_Some in Hj as [[Hlen Hj]|[-> <-]]; [|by left].
    right. split.
    + apply (Hlast (length ds)); [done|]. by apply list_lookup_middle.
    + apply IH. exists j, d0. split; [done|]. split; [done|].
      intros j' d' Hj' Hd'. apply (Hlast j'); [done|].
      by apply lookup_app_l_Some.
Qed.

(** X7. The later processor wins.  In the dictionary a call returns, a key
    has the value of the last processor, in the order of the loops, whose
    dictionary has that key; a key no processor returned is not there. *)
Theorem X7_later_processor_wins self idx self' t ret :
  getitem self idx = Some (self', (t, Ok ret)) →
  ∃ idx' ds,
    delegated self idx' = Ok <$> ds
    ∧ (fails self idx = false → idx' = idx)
    ∧ ∀ k v,
        ret !! k = Some v ↔
        ∃ (j : nat) d,
          ds !! j = Some d ∧ d !! k = Some v
          ∧ ∀ (j' : nat) d', (j < j')%nat → ds !! j' = Some d' →
                             d' !! k = None.
Proof.
  intros (_ & idx' & t' & Hp & Hfirst)%getitem_fuel_Ok_inv.
  rewrite prepare_registered in Hp.
  apply for_each_prepare_Ok in Hp as (ds & Hds & -> & _).
  exists idx', ds. split; [done|]. split; [by intros [-> _]%Hfirst|].
  intros k v. apply merged_lookup.
Qed.

Lemma for_each_prepare_calls_length self idx
    (l : list (nat * string * processor)) ret :
  (length (for_each l (λ '(i, m, p), prepare_processor self idx i m p)
             ret).1 ≤ length l)%nat.
Proof.
  revert ret. induction l as [|[[i m] p] l IH]; intros ret; [done|].
  cbn [for_each]. rewrite traced_bind_eq, prepare_processor_eq.
  destruct (attrs self !! attr_name m i) as [f|]; simpl; [|lia].
  destruct (truthy f); simpl.
  - destruct (p f idx (is_training self)); simpl; [|lia].
    specialize (IH (a ∪ ret)). lia.
  - specialize (IH ret). lia.
Qed.

Lemma getitem_fuel_calls_length (fuel : nat) self idx self' t r :
  getitem_fuel GET_ITEM_ERROR_RETRY fuel self idx = Some (self', (t, r)) →
  (length t ≤
     Z.to_nat (Z.max 1 (GET_ITEM_ERROR_RETRY - _consecutive_errors self))
     * length (registered (processors self)))%nat.
Proof.
  revert self idx t. induction fuel as [|fuel IH]; intros self idx t; [done|].
  simpl.
  pose proof (for_each_prepare_calls_length self idx
                (registered (processors self)) ∅) as Hfirst.
  rewrite <-prepare_registered in Hfirst.
  destruct (prepare self idx) as [t0 [ret|e]]; simpl in Hfirst;
    [intros [= _ <- _]; nia|].
  destruct (is_Exception e); [|intros [= _ <- _]; nia].
  destruct (Z.ltb_spec (_consecutive_errors self + 1) GET_ITEM_ERROR_RETRY);
    [|intros [= _ <- _]; nia].
  destruct (__len__ _) as [n|e']; [|intros [= _ <- _]; nia].
  destruct (n =? 0); [intros [= _ <- _]; nia|].
  destruct (getitem_fuel _ fuel _ _) as [[self'' [t' r']]|] eqn:Hrec; [|done].
  intros [= <- <- <-]. apply IH in Hrec. simpl in Hrec.
  rewrite length_app.
  replace (Z.to_nat (Z.max 1 (GET_ITEM_ERROR_RETRY - _consecutive_errors self)))
    with (S (Z.to_nat (Z.max 1
               (GET_ITEM_ERROR_RETRY - (_consecutive_errors self + 1)))))
    by lia.
  simpl. lia.
Qed.

(** X8. The cost of a call.  One call of [__getitem__] prepares at most
    [GET_ITEM_ERROR_RETRY] minus the counter samples, and one at least; so
    it calls the processors at most that many times the number of
    registered processors. *)
Theorem X8_calls_bounded self idx self' t r :
  getitem self idx = Some (self', (t, r)) →
  (length t ≤
     Z.to_nat (Z.max 1 (GET_ITEM_ERROR_RETRY - _consecutive_errors self))
     * length (registered (processors self)))%nat.
Proof. apply getitem_fuel_calls_length. Qed.

(** X9. Indices out of range.  On a dataset of positive length, whatever
    index is asked for, negative or past the end, every sample the retry
    goes on to is one of the dataset: the processors see the requested
    index or an index from 0 to the length minus one. *)
Theorem X9_retried_indices_in_range self idx n self' t r :
  __len__ self = Ok n → 0 < n →
  getitem self idx = Some (self', (t, r)) →
  Forall (λ c, call_idx c = idx ∨ 0 ≤ call_idx c < n) t.
Proof.
  intros Hlen Hn Hget. apply getitem_fuel_calls in Hget.
  eapply Forall_impl; [exact Hget|].
  intros c [_ [->|(n' & x & Hn' & _ & ->)]]; [by left|]. right.
  assert (n' = n) as -> by congruence. by apply Z.mod_pos_bound.
Qed.

(** X10. The first processor that raises.  When the processors before it
    have their attributes and return, and one raises on the non-empty
    features of its modality, the [try] block ends there with that
    exception: the processors after it are not called, and what the ones
    before returned is dropped. *)
Theorem X10_first_processor_error self idx l1 i m p l2 ds e :
  registered (processors self) = l1 ++ (i, m, p) :: l2 →
  (∀ i' m' p', (i', m', p') ∈ l1 →
               is_Some (attrs self !! attr_name m' i')) →
  outputs_along self idx l1 = Ok <$> ds →
  truthy (stored self i m) = true →
  p (stored self i m) idx (is_training self) = Err e →
  prepare self idx =
    (calls_along self idx l1
       ++ [mkCall i m p (stored self i m) idx (is_training self)],
     Err e).
Proof.
  intros Hreg Hattr Hds Htruthy He. rewrite prepare_registered, Hreg.
  rewrite (for_each_app (@traced_bind_ret_l _ _) (@traced_bind_assoc _ _)
             (@traced_bind_ext _ _)).
  rewrite (for_each_prepare_complete self idx l1 ∅ ds) by done.
  rewrite traced_bind_eq. cbn [fst snd for_each].
  rewrite traced_bind_eq, prepare_processor_eq. unfold stored in *.
  destruct (attrs self !! attr_name m i) as [f|]; simpl in *; [|done].
  by rewrite Htruthy, He.
Qed.

(** X11. An attribute that is missing.  When the processors before it have
    their attributes and return, and a registered processor belongs to a
    modality and group whose attribute was never set, the [try] block ends
    with [AttributeError] for that name, and that processor is not
    called. *)
Theorem X11_missing_attribute self idx l1 i m p l2 ds :
  registered (processors self) = l1 ++ (i, m, p) :: l2 →
  (∀ i' m' p', (i', m', p') ∈ l1 →
               is_Some (attrs self !! attr_name m' i')) →
  outputs_along self idx l1 = Ok <$> ds →
  attrs self !! attr_name m i = None →
  prepare self idx =
    (calls_along self idx l1, Err (AttributeError (attr_name m i))).
Proof.
  intros Hreg Hattr Hds Hnone. rewrite prepare_registered, Hreg.
  rewrite (for_each_app (@traced_bind_ret_l _ _) (@traced_bind_assoc _ _)
             (@traced_bind_ext _ _)).
  rewrite (for_each_prepare_complete self idx l1 ∅ ds) by done.
  rewrite traced_bind_eq. cbn [fst snd for_each].
  rewrite traced_bind_eq, prepare_processor_eq, Hnone. simpl.
  by rewrite (right_id_L [] (++)).
Qed.
End further.

(** * The further properties on the small datasets *)

(** A processor interrupted from the keyboard: the interrupt reaches the
    caller and the dataset is as before. *)
Lemma X2_base_exception_propagates_witness :
  __getitem__ 50 Example.interrupted_dataset 0 =
    Some (Example.interrupted_dataset,
          ((prepare Example.interrupted_dataset 0).1,
           Err (RaisedBaseException "KeyboardInterrupt"))).
Proof.
  apply (X2_base_exception_propagates 50 Example.interrupted_dataset 0 _ _
           eq_refl eq_refl).
Defined.

(** A data frame without rows gives a dataset of length 0; asking it for
    sample 0 raises [ZeroDivisionError], not the [IndexError] of the
    processor. *)
Lemma X3_empty_dataset_witness :
  __init__ tt [Example.empty_preprocessor] [[("text", [Example.pick])]] false
    = Ok Example.empty_dataset
  ∧ (prepare Example.empty_dataset 0).2 = Err IndexError
  ∧ __getitem__ 50 Example.empty_dataset 0 =
      Some (set_consecutive_errors Example.empty_dataset 1,
            ((prepare Example.empty_dataset 0).1, Err ZeroDivisionError)).
Proof.
  split; [reflexivity|]. split; [reflexivity|].
  apply (X3_empty_dataset 50 Example.empty_dataset 0 _ IndexError
           eq_refl eq_refl eq_refl).
  simpl. lia.
Defined.

(** With a bound of 3 and no sample that can be prepared, the first call
    raises after three preparations and leaves the counter at 3; the next
    call prepares one sample only. *)
Lemma X4_budget_stays_used_up_witness :
  _consecutive_errors (set_consecutive_errors Example.broken_dataset 3) = 3
  ∧ __getitem__ 3 (set_consecutive_errors Example.broken_dataset 3) 1 =
      Some (set_consecutive_errors Example.broken_dataset 4,
            ((prepare Example.broken_dataset 1).1,
             Err (RaisedException "broken"))).
Proof.
  destruct (X4_budget_stays_used_up 3 Example.broken_dataset 0 3
              (set_consecutive_errors Example.broken_dataset 3)
              (attempted_calls Example.broken_dataset 3 0 2
                 ++ (prepare Example.broken_dataset 2).1)
              (RaisedException "broken")
              eq_refl ltac:(lia) eq_refl eq_refl) as [H3 Hnext].
  split; [exact H3|].
  exact (Hnext 1 _ _ eq_refl eq_refl).
Defined.

(** A preprocessor without [transform_label]: the construction raises the
    [AttributeError], after the text was transformed. *)
Lemma X6_first_transformation_error_witness :
  __init__ tt [Example.text_preprocessor] Example.processors false
    = Err (AttributeError "transform_label").
Proof.
  apply (X6_first_transformation_error tt [Example.text_preprocessor]
           Example.processors false
           [(0%nat, Example.text_preprocessor, "text")]
           0%nat Example.text_preprocessor "label" []).
  - reflexivity.
  - intros i pp m Hin. apply list_elem_of_singleton in Hin as [= -> -> ->].
    by eexists.
  - reflexivity.
Defined.

(** Two processors write [text_token_ids]: the value returned is the one of
    the second. *)
Lemma X7_later_processor_wins_witness :
  ∃ idx' ds,
    delegated Example.clashing_dataset idx' = Ok <$> ds
    ∧ (fails Example.clashing_dataset 0 = false → idx' = 0)
    ∧ ∀ k v,
        ({[ "text_token_ids" := 3 ]} : gmap string Z) !! k = Some v ↔
        ∃ (j : nat) d,
          ds !! j = Some d ∧ d !! k = Some v
          ∧ ∀ (j' : nat) d', (j < j')%nat → ds !! j' = Some d' →
                             d' !! k = None.
Proof.
  apply (X7_later_processor_wins 50 Example.clashing_dataset 0
           (set_consecutive_errors Example.clashing_dataset 0)
           (prepare Example.clashing_dataset 0).1
           {[ "text_token_ids" := 3 ]}).
  vm_compute. reflexivity.
Defined.

(** [__getitem__(2)] on the example: at most 50 times 2 calls. *)
Lemma X8_calls_bounded_witness :
  (length (attempted_calls Example.dataset 3 2 1
             ++ (prepare Example.dataset 0).1)
   ≤ Z.to_nat (Z.max 1 (50 - 0))
     * length (registered Example.processors))%nat.
Proof.
  apply (X8_calls_bounded 50 Example.dataset 2
           (set_consecutive_errors Example.dataset 0) _
           (Ok (<["label" := 0]> (<["text_token_ids" := 101]> ∅)))).
  vm_compute. reflexivity.
Defined.

(** Index 7 of a dataset of three samples: the processors see 7, then 2,
    then 0. *)
Lemma X9_retried_indices_in_range_witness :
  Forall (λ c, call_idx c = 7 ∨ 0 ≤ call_idx c < 3)
    (attempted_calls Example.dataset 3 7 2 ++ (prepare Example.dataset 0).1).
Proof.
  apply (X9_retried_indices_in_range 50 Example.dataset 7 3
           (set_consecutive_errors Example.dataset 0) _
           (Ok (<["label" := 0]> (<["text_token_ids" := 101]> ∅)))).
  - reflexivity.
  - lia.
  - vm_compute. reflexivity.
Defined.

(** The second text processor raises: the first was called, the label
    processor is not. *)
Lemma X10_first_processor_error_witness :
  prepare Example.half_broken_dataset 0 =
    (calls_along Example.half_broken_dataset 0
       [(0%nat, "text", Example.pick)]
       ++ [mkCall 0 "text" Example.broken
             (stored Example.half_broken_dataset 0 "text") 0 false],
     Err (RaisedException "broken")).
Proof.
  apply (X10_first_processor_error Example.half_broken_dataset 0
           [(0%nat, "text", Example.pick)] 0%nat "text" Example.broken
           [(0%nat, "label", Example.pick)]
           [{[ "text_token_ids" := 101 ]}]).
  - reflexivity.
  - intros i m p Hin. apply list_elem_of_singleton in Hin as [= -> -> ->].
    by eexists.
  - reflexivity.
  - reflexivity.
  - reflexivity.
Defined.

(** Two processor groups, one preprocessor: preparing any sample ends with
    the [AttributeError] of [label_1]. *)
Lemma X11_missing_attribute_witness :
  prepare Example.short_dataset 0 =
    (calls_along Example.short_dataset 0
       [(0%nat, "text", Example.column_sizes)],
     Err (AttributeError "label_1")).
Proof.
  apply (X11_missing_attribute Example.short_dataset 0
           [(0%nat, "text", Example.column_sizes)] 1%nat "label"
           Example.column_sizes [] [{[ "text_token_ids" := 3 ]}]).
  - reflexivity.
  - intros i m p Hin. apply list_elem_of_singleton in Hin as [= -> -> ->].
    by eexists.
  - reflexivity.
  - reflexivity.
Defined.
